(** * The upload / enhance controller of the image enhancer front end

    A shallow embedding of [frontend/script.js] (class [ImageEnhancer]).
    The controller is event driven: every listener runs to completion on the
    browser's main thread, and the file read, the image decodes, the network
    requests and the timers finish later, each as an event of its own.  The
    model therefore is a step function over user events and completions of
    pending jobs, on a state made of the controller's fields, the page's
    elements and the browser's store of object URLs. *)

From Stdlib Require Import ZArith NArith QArith String Ascii List Bool Lia DecimalString.
From stdpp Require Import gmap fin_maps.
Import ListNotations.

Local Open Scope string_scope.
Local Open Scope Z_scope.

(** ** JavaScript values and library functions used by the controller *)

Module Js.

(** A number that is an integer or [NaN] ([None]), as [parseInt] yields. *)
Definition num := option Z.

Definition NaN : num := None.

(** [x >= k], [x > k] and [x === k]: every comparison with [NaN] is false. *)
Definition geb (x : num) (k : Z) : bool :=
  match x with Some z => k <=? z | None => false end.

Definition gtb (x : num) (k : Z) : bool :=
  match x with Some z => k <? z | None => false end.

Definition eqb (x : num) (k : Z) : bool :=
  match x with Some z => z =? k | None => false end.

(** [a * x] for an integer [a]; [NaN] is absorbing. *)
Definition mul (a : Z) (x : num) : num :=
  match x with Some z => Some (a * z) | None => None end.

(** Number to string, as a template literal prints it. *)
Definition string_of_Z (z : Z) : string := NilZero.string_of_int (Z.to_int z).

Definition string_of_N (n : N) : string := NilZero.string_of_uint (N.to_uint n).

Definition to_string (x : num) : string :=
  match x with Some z => string_of_Z z | None => "NaN" end.

Definition string_of_bool (b : bool) : string := if b then "true" else "false".

(** *** parseInt, without a radix argument *)

(** White space that [parseInt] skips (the one-byte code points). *)
Definition is_white_space (c : ascii) : bool :=
  let n := N_of_ascii c in
  ((n =? 9) || (n =? 10) || (n =? 11) || (n =? 12) || (n =? 13) || (n =? 32))%N.

Fixpoint trim_start (s : string) : string :=
  match s with
  | String c r => if is_white_space c then trim_start r else s
  | EmptyString => s
  end.

Definition digit_value (radix : N) (c : ascii) : option N :=
  let n := N_of_ascii c in
  let v := (if (48 <=? n) && (n <=? 57) then Some (n - 48)
            else if (97 <=? n) && (n <=? 122) then Some (n - 87)
            else if (65 <=? n) && (n <=? 90) then Some (n - 55)
            else None)%N in
  match v with
  | Some d => if (d <? radix)%N then Some d else None
  | None => None
  end.

(** The value of the longest prefix of digits; [acc] is [None] until a
    digit has been read. *)
Fixpoint parse_digits (radix : N) (s : string) (acc : option N) : option N :=
  match s with
  | String c r =>
      match digit_value radix c with
      | Some d =>
          parse_digits radix r
            (Some (radix * match acc with Some a => a | None => 0 end + d)%N)
      | None => acc
      end
  | EmptyString => acc
  end.

Definition strip_sign (s : string) : bool * string :=
  match s with
  | String "-" r => (true, r)
  | String "+" r => (false, r)
  | _ => (false, s)
  end.

Definition strip_hex_prefix (s : string) : N * string :=
  match s with
  | String "0" (String "x" r) => (16%N, r)
  | String "0" (String "X" r) => (16%N, r)
  | _ => (10%N, s)
  end.

Definition parseInt (s : string) : num :=
  let '(negative, s1) := strip_sign (trim_start s) in
  let '(radix, s2) := strip_hex_prefix s1 in
  match parse_digits radix s2 None with
  | Some n => Some (if negative then - Z.of_N n else Z.of_N n)
  | None => NaN
  end.

(** *** Regular expressions: literal characters and [.*] *)

Inductive re_item :=
| ReChar (c : ascii)
| ReAnyStar.

Definition is_line_terminator (c : ascii) : bool :=
  let n := N_of_ascii c in ((n =? 10) || (n =? 13))%N.

(** Does the pattern match a prefix of [s]? *)
Fixpoint re_here (p : list re_item) (s : string) : bool :=
  match p with
  | [] => true
  | ReChar c :: p' =>
      match s with
      | String d s' => Ascii.eqb c d && re_here p' s'
      | EmptyString => false
      end
  | ReAnyStar :: p' =>
      (fix star (s : string) : bool :=
         re_here p' s
         || match s with
            | String d s' => negb (is_line_terminator d) && star s'
            | EmptyString => false
            end) s
  end.

(** [str.match(p)] is not [null]: the pattern matches at some position. *)
Fixpoint re_search (p : list re_item) (s : string) : bool :=
  re_here p s
  || match s with
     | String _ s' => re_search p s'
     | EmptyString => false
     end.

(** The pattern made of the characters of [w], then [.*]. *)
Fixpoint literal_then_any (w : string) : list re_item :=
  match w with
  | EmptyString => [ReAnyStar]
  | String c r => ReChar c :: literal_then_any r
  end.

(** *** String methods *)

(** [s.lastIndexOf(c)]; [None] stands for [-1]. *)
Fixpoint lastIndexOf (c : ascii) (s : string) : option nat :=
  match s with
  | EmptyString => None
  | String d r =>
      match lastIndexOf c r with
      | Some i => Some (S i)
      | None => if Ascii.eqb c d then Some O else None
      end
  end.

(** [s.substring(0, e)]: a negative end counts as [0]. *)
Definition substring_to (e : option nat) (s : string) : string :=
  String.substring 0 (match e with Some i => i | None => O end) s.

(** [s.replace(/[:]/g, '-')], for any one character. *)
Fixpoint replace_all (c by_ : ascii) (s : string) : string :=
  match s with
  | EmptyString => EmptyString
  | String d r => String (if Ascii.eqb c d then by_ else d) (replace_all c by_ r)
  end.

(** [s.split('/')[1]]: the text between the first and the second slash;
    [None] ([undefined]) when [s] has no slash. *)
Fixpoint up_to (c : ascii) (s : string) : string :=
  match s with
  | EmptyString => EmptyString
  | String d r => if Ascii.eqb c d then EmptyString else String d (up_to c r)
  end.

Fixpoint split_second (c : ascii) (s : string) : option string :=
  match s with
  | EmptyString => None
  | String d r => if Ascii.eqb c d then Some (up_to c r) else split_second c r
  end.

Definition upper (c : ascii) : ascii :=
  let n := N_of_ascii c in
  if ((97 <=? n) && (n <=? 122))%N then ascii_of_N (n - 32) else c.

Fixpoint toUpperCase (s : string) : string :=
  match s with
  | EmptyString => EmptyString
  | String c r => String (upper c) (toUpperCase r)
  end.

(** [s] occurs in [t]. *)
Definition occurs_in (s t : string) : Prop :=
  exists pre post : string, t = pre ++ s ++ post.

Definition ends_with (t s : string) : Prop :=
  exists pre : string, t = pre ++ s.

(** The number a slider's value denotes: digits with an optional fraction,
    which is the form a range input keeps its value in. *)
Fixpoint digits_value (s : string) (acc : N) : option N :=
  match s with
  | EmptyString => Some acc
  | String c r =>
      match digit_value 10 c with
      | Some d => digits_value r (10 * acc + d)%N
      | None => None
      end
  end.

Fixpoint after (c : ascii) (s : string) : string :=
  match s with
  | EmptyString => EmptyString
  | String d r => if Ascii.eqb c d then r else after c r
  end.

Definition decimal_value (s : string) : option Q :=
  let int_part := up_to "." s in
  let frac_part := after "." s in
  match int_part with
  | EmptyString => None
  | _ =>
      match digits_value (int_part ++ frac_part) 0 with
      | Some n => Some (Z.of_N n # Z.to_pos (10 ^ Z.of_nat (String.length frac_part)))
      | None => None
      end
  end.

End Js.

(** ** Data *)

(** The media type the browser reports for a file: [type/subtype], or
    nothing when it knows none. *)
Inductive MimeType :=
| NoType                                (* [""] *)
| Mime (type subtype : string).         (* [type/subtype] *)

(** A file the user offers: the fields of the browser's [File] the code reads. *)
Record File := {
  file_name : string;
  file_type : MimeType;
  file_size : Z         (* bytes *)
}.

(** [file.type], the string the code works on. *)
Definition type_string (f : File) : string :=
  match file_type f with
  | NoType => ""
  | Mime t sub => t ++ "/" ++ sub
  end.

(** What an object URL refers to: [createObjectURL] is called on the offered
    file (to measure it) and on the body of an enhance response. *)
Inductive Blob :=
| BlobOfFile (f : File)
| BlobOfResponse (body : string).

Record Response := {
  status : N;
  body : string
}.

(** [response.ok] *)
Definition ok (r : Response) : bool := ((200 <=? status r) && (status r <=? 299))%N.

(** A [fetch] call: the URL without its query, the entries of the
    [URLSearchParams] and the entries of the [FormData] body. *)
Record Request := {
  method : string;
  url : string;
  query : list (string * string);
  form : list (string * File)
}.

Inductive Src :=
| SrcEmpty
| SrcData (d : string)
| SrcObject (u : nat).

Record Img := {
  img_src : Src;
  img_shown : bool
}.

(** A preview box: its [img] element, created by the first [displayImage],
    and its placeholder. *)
Record Preview := {
  img : option Img;
  placeholder_shown : bool
}.

(** The [innerHTML] of a stats box, by its entries.  File sizes are kept as
    the file they are formatted from. *)
Inductive StatsContent :=
| StatsBlank
| StatsOriginal (width height : Z) (newWidth newHeight : Js.num) (f : File) (format : string)
| StatsUnable
| StatsEnhanced (newWidth newHeight : Js.num) (scale : Js.num).

Record Stats := {
  stats_content : StatsContent;
  stats_shown : bool
}.

Inductive Health := Connected | ConnectionIssue | NotReachable.

Inductive Modal := ErrorModal | LoadingModal.

Inductive Slider := Sharpness | Contrast | Brightness | Color.

(** The two halves of the comparison view: the [originalPreview] box with
    its [originalImage] and [originalStats], and the enhanced ones. *)
Inductive Panel := Original | Enhanced.

(** Asynchronous work in flight, with what its continuation captured. *)
Inductive Job :=
| FileReaderJob (file : File) (started : bool)
| StatsImageJob (statsId : Panel) (file : File) (src : nat)
| EnhanceFetchJob (superResValue : Js.num)
| EnhancedStatsImageJob (scale : Js.num) (src : option string)
| HealthFetchJob
| ClearInputTimer
| HideStatusTimer
| MobileTipTimer.

(** How a job ends (or, for a file read, begins). *)
Inductive Outcome :=
| LoadStart
| Load (result : string)
| ReadError
| Abort
| ImgLoad (width height : Z)
| ImgError
| Responded (r : Response)
| Rejected (message : string)
| Elapsed.

Inductive Effect :=
| Confirm (message : string) (answer : bool)
| Fetch (r : Request)
| AnchorClick (href : nat) (download : string)
| Uncaught (message : string).

Record Controller := Build_Controller {
  originalImage : option string;  (* data URL of the file read, or null *)
  enhancedImage : option string;  (* declared, only ever null *)
  currentImageFile : option File;
  enhancedImageUrl : option nat;  (* object URL of the enhanced result, or null *)
  isMobile : bool
}.

Definition set_originalImage (x : option string) (r : Controller) : Controller :=
  Build_Controller x (enhancedImage r) (currentImageFile r) (enhancedImageUrl r)
  (isMobile r).

Definition set_enhancedImage (x : option string) (r : Controller) : Controller :=
  Build_Controller (originalImage r) x (currentImageFile r) (enhancedImageUrl r)
  (isMobile r).

Definition set_currentImageFile (x : option File) (r : Controller) : Controller :=
  Build_Controller (originalImage r) (enhancedImage r) x (enhancedImageUrl r)
  (isMobile r).

Definition set_enhancedImageUrl (x : option nat) (r : Controller) : Controller :=
  Build_Controller (originalImage r) (enhancedImage r) (currentImageFile r) x
  (isMobile r).

Record Controls := Build_Controls {
  imageInput : string;  (* value of the file input *)
  sharpnessSlider : string;
  contrastSlider : string;
  brightnessSlider : string;
  colorSlider : string;
  denoiseCheckbox : bool;
  superResSelect : string;
  autoEnhanceCheckbox : bool;
  formatSelect : string
}.

Definition set_imageInput (x : string) (r : Controls) : Controls :=
  Build_Controls x (sharpnessSlider r) (contrastSlider r) (brightnessSlider r)
  (colorSlider r) (denoiseCheckbox r) (superResSelect r) (autoEnhanceCheckbox r)
  (formatSelect r).

Definition set_sharpnessSlider (x : string) (r : Controls) : Controls :=
  Build_Controls (imageInput r) x (contrastSlider r) (brightnessSlider r) (colorSlider
  r) (denoiseCheckbox r) (superResSelect r) (autoEnhanceCheckbox r) (formatSelect r).

Definition set_contrastSlider (x : string) (r : Controls) : Controls :=
  Build_Controls (imageInput r) (sharpnessSlider r) x (brightnessSlider r)
  (colorSlider r) (denoiseCheckbox r) (superResSelect r) (autoEnhanceCheckbox r)
  (formatSelect r).

Definition set_brightnessSlider (x : string) (r : Controls) : Controls :=
  Build_Controls (imageInput r) (sharpnessSlider r) (contrastSlider r) x (colorSlider
  r) (denoiseCheckbox r) (superResSelect r) (autoEnhanceCheckbox r) (formatSelect r).

Definition set_colorSlider (x : string) (r : Controls) : Controls :=
  Build_Controls (imageInput r) (sharpnessSlider r) (contrastSlider r)
  (brightnessSlider r) x (denoiseCheckbox r) (superResSelect r) (autoEnhanceCheckbox
  r) (formatSelect r).

Definition set_denoiseCheckbox (x : bool) (r : Controls) : Controls :=
  Build_Controls (imageInput r) (sharpnessSlider r) (contrastSlider r)
  (brightnessSlider r) (colorSlider r) x (superResSelect r) (autoEnhanceCheckbox r)
  (formatSelect r).

Definition set_superResSelect (x : string) (r : Controls) : Controls :=
  Build_Controls (imageInput r) (sharpnessSlider r) (contrastSlider r)
  (brightnessSlider r) (colorSlider r) (denoiseCheckbox r) x (autoEnhanceCheckbox r)
  (formatSelect r).

Definition set_autoEnhanceCheckbox (x : bool) (r : Controls) : Controls :=
  Build_Controls (imageInput r) (sharpnessSlider r) (contrastSlider r)
  (brightnessSlider r) (colorSlider r) (denoiseCheckbox r) (superResSelect r) x
  (formatSelect r).

Definition set_formatSelect (x : string) (r : Controls) : Controls :=
  Build_Controls (imageInput r) (sharpnessSlider r) (contrastSlider r)
  (brightnessSlider r) (colorSlider r) (denoiseCheckbox r) (superResSelect r)
  (autoEnhanceCheckbox r) x.

Record View := Build_View {
  enhanceBtn_disabled : bool;
  downloadBtn_disabled : bool;
  statusText : string;
  statusClass : string;
  statusShown : bool;
  loadingModal : bool;  (* displayed? *)
  loadingMessage : string;
  errorModal : bool;  (* displayed? *)
  errorMessage : string;
  originalPreview : Preview;
  enhancedPreview : Preview;
  originalStats : Stats;
  enhancedStats : Stats;
  fileInfo : option File;  (* the file whose name, size and type are listed *)
  sharpnessValue : string;
  contrastValue : string;
  brightnessValue : string;
  colorValue : string;
  mobileProcessingIndicator : option (bool * string);  (* created on demand: displayed?, heading *)
  backendStatus : option Health;
  option8x_disabled : bool
}.

Definition set_enhanceBtn_disabled (x : bool) (r : View) : View :=
  Build_View x (downloadBtn_disabled r) (statusText r) (statusClass r) (statusShown r)
  (loadingModal r) (loadingMessage r) (errorModal r) (errorMessage r) (originalPreview
  r) (enhancedPreview r) (originalStats r) (enhancedStats r) (fileInfo r)
  (sharpnessValue r) (contrastValue r) (brightnessValue r) (colorValue r)
  (mobileProcessingIndicator r) (backendStatus r) (option8x_disabled r).

Definition set_downloadBtn_disabled (x : bool) (r : View) : View :=
  Build_View (enhanceBtn_disabled r) x (statusText r) (statusClass r) (statusShown r)
  (loadingModal r) (loadingMessage r) (errorModal r) (errorMessage r) (originalPreview
  r) (enhancedPreview r) (originalStats r) (enhancedStats r) (fileInfo r)
  (sharpnessValue r) (contrastValue r) (brightnessValue r) (colorValue r)
  (mobileProcessingIndicator r) (backendStatus r) (option8x_disabled r).

Definition set_statusText (x : string) (r : View) : View :=
  Build_View (enhanceBtn_disabled r) (downloadBtn_disabled r) x (statusClass r)
  (statusShown r) (loadingModal r) (loadingMessage r) (errorModal r) (errorMessage r)
  (originalPreview r) (enhancedPreview r) (originalStats r) (enhancedStats r)
  (fileInfo r) (sharpnessValue r) (contrastValue r) (brightnessValue r) (colorValue r)
  (mobileProcessingIndicator r) (backendStatus r) (option8x_disabled r).

Definition set_statusClass (x : string) (r : View) : View :=
  Build_View (enhanceBtn_disabled r) (downloadBtn_disabled r) (statusText r) x
  (statusShown r) (loadingModal r) (loadingMessage r) (errorModal r) (errorMessage r)
  (originalPreview r) (enhancedPreview r) (originalStats r) (enhancedStats r)
  (fileInfo r) (sharpnessValue r) (contrastValue r) (brightnessValue r) (colorValue r)
  (mobileProcessingIndicator r) (backendStatus r) (option8x_disabled r).

Definition set_statusShown (x : bool) (r : View) : View :=
  Build_View (enhanceBtn_disabled r) (downloadBtn_disabled r) (statusText r)
  (statusClass r) x (loadingModal r) (loadingMessage r) (errorModal r) (errorMessage
  r) (originalPreview r) (enhancedPreview r) (originalStats r) (enhancedStats r)
  (fileInfo r) (sharpnessValue r) (contrastValue r) (brightnessValue r) (colorValue r)
  (mobileProcessingIndicator r) (backendStatus r) (option8x_disabled r).

Definition set_loadingModal (x : bool) (r : View) : View :=
  Build_View (enhanceBtn_disabled r) (downloadBtn_disabled r) (statusText r)
  (statusClass r) (statusShown r) x (loadingMessage r) (errorModal r) (errorMessage r)
  (originalPreview r) (enhancedPreview r) (originalStats r) (enhancedStats r)
  (fileInfo r) (sharpnessValue r) (contrastValue r) (brightnessValue r) (colorValue r)
  (mobileProcessingIndicator r) (backendStatus r) (option8x_disabled r).

Definition set_loadingMessage (x : string) (r : View) : View :=
  Build_View (enhanceBtn_disabled r) (downloadBtn_disabled r) (statusText r)
  (statusClass r) (statusShown r) (loadingModal r) x (errorModal r) (errorMessage r)
  (originalPreview r) (enhancedPreview r) (originalStats r) (enhancedStats r)
  (fileInfo r) (sharpnessValue r) (contrastValue r) (brightnessValue r) (colorValue r)
  (mobileProcessingIndicator r) (backendStatus r) (option8x_disabled r).

Definition set_errorModal (x : bool) (r : View) : View :=
  Build_View (enhanceBtn_disabled r) (downloadBtn_disabled r) (statusText r)
  (statusClass r) (statusShown r) (loadingModal r) (loadingMessage r) x (errorMessage
  r) (originalPreview r) (enhancedPreview r) (originalStats r) (enhancedStats r)
  (fileInfo r) (sharpnessValue r) (contrastValue r) (brightnessValue r) (colorValue r)
  (mobileProcessingIndicator r) (backendStatus r) (option8x_disabled r).

Definition set_errorMessage (x : string) (r : View) : View :=
  Build_View (enhanceBtn_disabled r) (downloadBtn_disabled r) (statusText r)
  (statusClass r) (statusShown r) (loadingModal r) (loadingMessage r) (errorModal r) x
  (originalPreview r) (enhancedPreview r) (originalStats r) (enhancedStats r)
  (fileInfo r) (sharpnessValue r) (contrastValue r) (brightnessValue r) (colorValue r)
  (mobileProcessingIndicator r) (backendStatus r) (option8x_disabled r).

Definition set_originalPreview (x : Preview) (r : View) : View :=
  Build_View (enhanceBtn_disabled r) (downloadBtn_disabled r) (statusText r)
  (statusClass r) (statusShown r) (loadingModal r) (loadingMessage r) (errorModal r)
  (errorMessage r) x (enhancedPreview r) (originalStats r) (enhancedStats r) (fileInfo
  r) (sharpnessValue r) (contrastValue r) (brightnessValue r) (colorValue r)
  (mobileProcessingIndicator r) (backendStatus r) (option8x_disabled r).

Definition set_enhancedPreview (x : Preview) (r : View) : View :=
  Build_View (enhanceBtn_disabled r) (downloadBtn_disabled r) (statusText r)
  (statusClass r) (statusShown r) (loadingModal r) (loadingMessage r) (errorModal r)
  (errorMessage r) (originalPreview r) x (originalStats r) (enhancedStats r) (fileInfo
  r) (sharpnessValue r) (contrastValue r) (brightnessValue r) (colorValue r)
  (mobileProcessingIndicator r) (backendStatus r) (option8x_disabled r).

Definition set_originalStats (x : Stats) (r : View) : View :=
  Build_View (enhanceBtn_disabled r) (downloadBtn_disabled r) (statusText r)
  (statusClass r) (statusShown r) (loadingModal r) (loadingMessage r) (errorModal r)
  (errorMessage r) (originalPreview r) (enhancedPreview r) x (enhancedStats r)
  (fileInfo r) (sharpnessValue r) (contrastValue r) (brightnessValue r) (colorValue r)
  (mobileProcessingIndicator r) (backendStatus r) (option8x_disabled r).

Definition set_enhancedStats (x : Stats) (r : View) : View :=
  Build_View (enhanceBtn_disabled r) (downloadBtn_disabled r) (statusText r)
  (statusClass r) (statusShown r) (loadingModal r) (loadingMessage r) (errorModal r)
  (errorMessage r) (originalPreview r) (enhancedPreview r) (originalStats r) x
  (fileInfo r) (sharpnessValue r) (contrastValue r) (brightnessValue r) (colorValue r)
  (mobileProcessingIndicator r) (backendStatus r) (option8x_disabled r).

Definition set_fileInfo (x : option File) (r : View) : View :=
  Build_View (enhanceBtn_disabled r) (downloadBtn_disabled r) (statusText r)
  (statusClass r) (statusShown r) (loadingModal r) (loadingMessage r) (errorModal r)
  (errorMessage r) (originalPreview r) (enhancedPreview r) (originalStats r)
  (enhancedStats r) x (sharpnessValue r) (contrastValue r) (brightnessValue r)
  (colorValue r) (mobileProcessingIndicator r) (backendStatus r) (option8x_disabled
  r).

Definition set_sharpnessValue (x : string) (r : View) : View :=
  Build_View (enhanceBtn_disabled r) (downloadBtn_disabled r) (statusText r)
  (statusClass r) (statusShown r) (loadingModal r) (loadingMessage r) (errorModal r)
  (errorMessage r) (originalPreview r) (enhancedPreview r) (originalStats r)
  (enhancedStats r) (fileInfo r) x (contrastValue r) (brightnessValue r) (colorValue
  r) (mobileProcessingIndicator r) (backendStatus r) (option8x_disabled r).

Definition set_contrastValue (x : string) (r : View) : View :=
  Build_View (enhanceBtn_disabled r) (downloadBtn_disabled r) (statusText r)
  (statusClass r) (statusShown r) (loadingModal r) (loadingMessage r) (errorModal r)
  (errorMessage r) (originalPreview r) (enhancedPreview r) (originalStats r)
  (enhancedStats r) (fileInfo r) (sharpnessValue r) x (brightnessValue r) (colorValue
  r) (mobileProcessingIndicator r) (backendStatus r) (option8x_disabled r).

Definition set_brightnessValue (x : string) (r : View) : View :=
  Build_View (enhanceBtn_disabled r) (downloadBtn_disabled r) (statusText r)
  (statusClass r) (statusShown r) (loadingModal r) (loadingMessage r) (errorModal r)
  (errorMessage r) (originalPreview r) (enhancedPreview r) (originalStats r)
  (enhancedStats r) (fileInfo r) (sharpnessValue r) (contrastValue r) x (colorValue r)
  (mobileProcessingIndicator r) (backendStatus r) (option8x_disabled r).

Definition set_colorValue (x : string) (r : View) : View :=
  Build_View (enhanceBtn_disabled r) (downloadBtn_disabled r) (statusText r)
  (statusClass r) (statusShown r) (loadingModal r) (loadingMessage r) (errorModal r)
  (errorMessage r) (originalPreview r) (enhancedPreview r) (originalStats r)
  (enhancedStats r) (fileInfo r) (sharpnessValue r) (contrastValue r) (brightnessValue
  r) x (mobileProcessingIndicator r) (backendStatus r) (option8x_disabled r).

Definition set_mobileProcessingIndicator (x : option (bool * string)) (r : View) : View :=
  Build_View (enhanceBtn_disabled r) (downloadBtn_disabled r) (statusText r)
  (statusClass r) (statusShown r) (loadingModal r) (loadingMessage r) (errorModal r)
  (errorMessage r) (originalPreview r) (enhancedPreview r) (originalStats r)
  (enhancedStats r) (fileInfo r) (sharpnessValue r) (contrastValue r) (brightnessValue
  r) (colorValue r) x (backendStatus r) (option8x_disabled r).

Definition set_backendStatus (x : option Health) (r : View) : View :=
  Build_View (enhanceBtn_disabled r) (downloadBtn_disabled r) (statusText r)
  (statusClass r) (statusShown r) (loadingModal r) (loadingMessage r) (errorModal r)
  (errorMessage r) (originalPreview r) (enhancedPreview r) (originalStats r)
  (enhancedStats r) (fileInfo r) (sharpnessValue r) (contrastValue r) (brightnessValue
  r) (colorValue r) (mobileProcessingIndicator r) x (option8x_disabled r).

Definition set_option8x_disabled (x : bool) (r : View) : View :=
  Build_View (enhanceBtn_disabled r) (downloadBtn_disabled r) (statusText r)
  (statusClass r) (statusShown r) (loadingModal r) (loadingMessage r) (errorModal r)
  (errorMessage r) (originalPreview r) (enhancedPreview r) (originalStats r)
  (enhancedStats r) (fileInfo r) (sharpnessValue r) (contrastValue r) (brightnessValue
  r) (colorValue r) (mobileProcessingIndicator r) (backendStatus r) x.

Record State := Build_State {
  ctl : Controller;  (* the fields of the ImageEnhancer instance *)
  inputs : Controls;
  view : View;
  blobs : gmap nat Blob;  (* the browser's store of live object URLs *)
  nextUrl : nat;  (* the next object URL to hand out *)
  jobs : list Job;  (* pending asynchronous work, oldest first *)
  effects : list Effect  (* what the page did to the outside, oldest first *)
}.

Definition set_ctl (x : Controller) (r : State) : State :=
  Build_State x (inputs r) (view r) (blobs r) (nextUrl r) (jobs r) (effects r).

Definition set_inputs (x : Controls) (r : State) : State :=
  Build_State (ctl r) x (view r) (blobs r) (nextUrl r) (jobs r) (effects r).

Definition set_view (x : View) (r : State) : State :=
  Build_State (ctl r) (inputs r) x (blobs r) (nextUrl r) (jobs r) (effects r).

Definition set_blobs (x : gmap nat Blob) (r : State) : State :=
  Build_State (ctl r) (inputs r) (view r) x (nextUrl r) (jobs r) (effects r).

Definition set_nextUrl (x : nat) (r : State) : State :=
  Build_State (ctl r) (inputs r) (view r) (blobs r) x (jobs r) (effects r).

Definition set_jobs (x : list Job) (r : State) : State :=
  Build_State (ctl r) (inputs r) (view r) (blobs r) (nextUrl r) x (effects r).

Definition set_effects (x : list Effect) (r : State) : State :=
  Build_State (ctl r) (inputs r) (view r) (blobs r) (nextUrl r) (jobs r) x.

(** ** The browser *)

Definition on_ctl (f : Controller -> Controller) (s : State) : State :=
  set_ctl (f (ctl s)) s.

Definition on_inputs (f : Controls -> Controls) (s : State) : State :=
  set_inputs (f (inputs s)) s.

Definition on_view (f : View -> View) (s : State) : State :=
  set_view (f (view s)) s.

(** Start asynchronous work; its end is a later [Completed] event. *)
Definition add_job (j : Job) (s : State) : State :=
  set_jobs (jobs s ++ [j]) s.

Definition emit (e : Effect) (s : State) : State :=
  set_effects (effects s ++ [e]) s.

(** [URL.createObjectURL(b)]: a URL not handed out before, live until revoked. *)
Definition createObjectURL (b : Blob) (s : State) : nat * State :=
  (nextUrl s, set_nextUrl (S (nextUrl s)) (set_blobs (<[nextUrl s := b]> (blobs s)) s)).

(** [URL.revokeObjectURL(u)] *)
Definition revokeObjectURL (u : nat) (s : State) : State :=
  set_blobs (delete u (blobs s)) s.

(** ** The methods of [ImageEnhancer] *)

Definition backendUrl : string := "https://your-pythonanywhere-backend.com".

Definition dquote : string := String (ascii_of_nat 34) EmptyString.

Definition showStatus (message type_ : string) (s : State) : State :=
  let s := on_view (fun v =>
             set_statusShown true
               (set_statusClass ("status " ++ type_) (set_statusText message v))) s in
  (* success messages hide themselves after five seconds *)
  if String.eqb type_ "success" then add_job HideStatusTimer s else s.

Definition showLoading (show : bool) (s : State) : State :=
  on_view (set_loadingModal show) s.

Definition showModal (modalId : Modal) (s : State) : State :=
  match modalId with
  | ErrorModal => on_view (set_errorModal true) s
  | LoadingModal => on_view (set_loadingModal true) s
  end.

Definition hideModal (modalId : Modal) (s : State) : State :=
  match modalId with
  | ErrorModal => on_view (set_errorModal false) s
  | LoadingModal => on_view (set_loadingModal false) s
  end.

Definition showErrorModal (message : string) (s : State) : State :=
  showModal ErrorModal (on_view (set_errorMessage message) s).

Definition showMobileProcessing (show : bool) (message : string) (s : State) : State :=
  let heading :=
    match mobileProcessingIndicator (view s) with
    | Some (_, old) => if show then message else old
    | None => message
    end in
  on_view (set_mobileProcessingIndicator (Some (show, heading))) s.

Definition updateSliders (s : State) : State :=
  let i := inputs s in
  on_view (fun v =>
    set_colorValue (colorSlider i ++ "x")
      (set_brightnessValue (brightnessSlider i ++ "x")
         (set_contrastValue (contrastSlider i ++ "x")
            (set_sharpnessValue (sharpnessSlider i ++ "x") v)))) s.

Definition preview (p : Panel) (v : View) : Preview :=
  match p with Original => originalPreview v | Enhanced => enhancedPreview v end.

Definition set_preview (p : Panel) (x : Preview) (v : View) : View :=
  match p with Original => set_originalPreview x v | Enhanced => set_enhancedPreview x v end.

Definition stats (p : Panel) (v : View) : Stats :=
  match p with Original => originalStats v | Enhanced => enhancedStats v end.

Definition set_stats (p : Panel) (x : Stats) (v : View) : View :=
  match p with Original => set_originalStats x v | Enhanced => set_enhancedStats x v end.

Definition hide_stats (p : Panel) (v : View) : View :=
  set_stats p {| stats_content := stats_content (stats p v); stats_shown := false |} v.

(** [displayImage(previewId, imageUrl, imgElementId)]: the [img] is created
    on first use; the placeholder is hidden. *)
Definition displayImage (p : Panel) (imageUrl : Src) (s : State) : State :=
  on_view (set_preview p
    {| img := Some {| img_src := imageUrl; img_shown := true |};
       placeholder_shown := false |}) s.

(** The common part of [resetImagePreview] and [resetEnhancedPreview]: hide
    and empty the [img] if there is one, show the placeholder. *)
Definition resetImagePreview (p : Panel) (s : State) : State :=
  on_view (fun v =>
    set_preview p
      {| img := match img (preview p v) with
                | Some _ => Some {| img_src := SrcEmpty; img_shown := false |}
                | None => None
                end;
         placeholder_shown := true |} v) s.

Definition resetEnhancedPreview (s : State) : State :=
  let s := resetImagePreview Enhanced s in
  let s := on_view (hide_stats Enhanced) s in
  (* Clean up URL *)
  match enhancedImageUrl (ctl s) with
  | Some u => on_ctl (set_enhancedImageUrl None) (revokeObjectURL u s)
  | None => s
  end.

Definition type_error (property : string) : string :=
  "TypeError: Cannot read properties of " ++ property.

(** [updateImageStats(statsId, file)]: the file is decoded through an object
    URL of its own, which nothing revokes. *)
Definition updateImageStats (statsId : Panel) (file : File) (s : State) : State :=
  let '(u, s) := createObjectURL (BlobOfFile file) s in
  add_job (StatsImageJob statsId file u) s.

(** [img.onload] of [updateImageStats] *)
Definition stats_onload (statsId : Panel) (file : File) (width height : Z)
    (s : State) : State :=
  let scaleFactor := Js.parseInt (superResSelect (inputs s)) in
  let newWidth := Js.mul width scaleFactor in
  let newHeight := Js.mul height scaleFactor in
  match Js.split_second "/" (type_string file) with
  | None => emit (Uncaught (type_error "undefined (reading 'toUpperCase')")) s
  | Some sub =>
      on_view (set_stats statsId
        {| stats_content :=
             StatsOriginal width height newWidth newHeight file (Js.toUpperCase sub);
           stats_shown := true |}) s
  end.

(** [img.onerror] of [updateImageStats] *)
Definition stats_onerror (statsId : Panel) (s : State) : State :=
  on_view (set_stats statsId {| stats_content := StatsUnable; stats_shown := true |}) s.

(** The pattern ['image.*'] that [handleImageFile] hands to [String.match]. *)
Definition image_pattern : list Js.re_item :=
  [Js.ReChar "i"; Js.ReChar "m"; Js.ReChar "a"; Js.ReChar "g"; Js.ReChar "e"; Js.ReAnyStar].

Definition maxSize (mobile : bool) : Z :=
  if mobile then 5 * 1024 * 1024 else 10 * 1024 * 1024.

Definition maxMB (mobile : bool) : string :=
  if mobile then "5MB" else "10MB".

(** [handleImageFile(file)], up to [reader.readAsDataURL(file)]. *)
Definition handleImageFile (file : option File) (s : State) : State :=
  match file with
  | None => showStatus "No file provided" "error" s
  | Some file =>
      (* Validate file type *)
      if negb (Js.re_search image_pattern (type_string file)) then
        showStatus "Please select an image file (JPG, PNG, etc.)" "error" s
      else
        (* Check file size *)
        if file_size file >? maxSize (isMobile (ctl s)) then
          showStatus ("File too large! Please select image under "
                      ++ maxMB (isMobile (ctl s)) ++ ".") "error" s
        else
          let s := on_ctl (set_currentImageFile (Some file)) s in
          add_job (FileReaderJob file false) s
  end.

Definition reader_onloadstart (s : State) : State :=
  showStatus "Loading image..." "loading" s.

Definition reader_onload (file : File) (result : string) (s : State) : State :=
  let s := on_ctl (set_originalImage (Some result)) s in
  let s := displayImage Original (SrcData result) s in
  let s := updateImageStats Original file s in
  let s := resetEnhancedPreview s in
  let s := on_view (set_enhanceBtn_disabled false) s in
  let s := on_view (set_downloadBtn_disabled true) s in
  match Js.split_second "/" (type_string file) with
  | None => emit (Uncaught (type_error "undefined (reading 'toUpperCase')")) s
  | Some _ =>
      let s := on_view (set_fileInfo (Some file)) s in
      showStatus ("✅ Image loaded! Adjust settings and click "
                  ++ dquote ++ "Enhance Image" ++ dquote) "success" s
  end.

Definition reader_onerror (s : State) : State :=
  showStatus "❌ Failed to load image" "error" s.

Definition reader_onabort (s : State) : State :=
  showStatus "❌ Image loading cancelled" "error" s.

(** [handleFileInputChange(e)], on the files of the input. *)
Definition handleFileInputChange (files : list File) (s : State) : State :=
  match files with
  | file :: _ =>
      let s := handleImageFile (Some file) s in
      (* Reset input to allow same file selection *)
      add_job ClearInputTimer s
  | [] => showStatus "No file selected" "error" s
  end.

(** The [URLSearchParams] of the enhance request, read off the controls. *)
Definition params (superResValue : Js.num) (s : State) : list (string * string) :=
  let i := inputs s in
  [ ("sharpness", sharpnessSlider i);
    ("contrast", contrastSlider i);
    ("brightness", brightnessSlider i);
    ("color", colorSlider i);
    ("denoise", Js.string_of_bool (denoiseCheckbox i));
    ("super_resolution", Js.to_string superResValue) ].

Definition enhance_request (file : File) (superResValue : Js.num) (s : State) : Request :=
  {| method := "POST";
     url := backendUrl ++ "/enhance-advanced";
     query := params superResValue s;
     form := [("file", file)] |}.

Definition loading_message (superResValue : Js.num) : string :=
  if Js.eqb superResValue 4 then
    "Applying 4x super resolution... This may take longer."
  else if Js.eqb superResValue 8 then
    "Applying 8x super resolution... Please be patient."
  else "Enhancing image... Please wait.".

Definition confirm_message (superResValue : Js.num) : string :=
  "⚠️ " ++ Js.to_string superResValue ++ "x upscaling may be slow on mobile. Continue?".

(** [enhanceImage()], up to the [await] of the [fetch].  [answer] is what
    the user replies to [confirm], should it be asked. *)
Definition enhanceImage (answer : bool) (s : State) : State :=
  match currentImageFile (ctl s) with
  | None => showStatus "Please select an image first" "error" s
  | Some file =>
      let superResValue := Js.parseInt (superResSelect (inputs s)) in
      (* MOBILE: Show warning for large upscaling *)
      let asked := isMobile (ctl s) && Js.geb superResValue 4 in
      let s := if asked then emit (Confirm (confirm_message superResValue) answer) s
               else s in
      if asked && negb answer then s
      else
        let loadingMessage := loading_message superResValue in
        let s := if isMobile (ctl s)
                 then showMobileProcessing true loadingMessage s else s in
        let s := on_view (set_loadingMessage loadingMessage) s in
        let s := showLoading true s in
        let s := showStatus loadingMessage "loading" s in
        let s := emit (Fetch (enhance_request file superResValue s)) s in
        add_job (EnhanceFetchJob superResValue) s
  end.

(** The [finally] block of [enhanceImage]. *)
Definition enhance_finally (s : State) : State :=
  let s := showLoading false s in
  if isMobile (ctl s) then showMobileProcessing false "Processing..." s else s.

(** The [catch] block of [enhanceImage], on [error.message]. *)
Definition enhance_catch (message : string) (s : State) : State :=
  showErrorModal ("Enhancement failed: " ++ message) s.

Definition server_error (r : Response) : string :=
  "Server error: " ++ Js.string_of_N (status r) ++ " - " ++ body r.

Definition success_message (superResValue : Js.num) : string :=
  if Js.gtb superResValue 1 then
    "✅ Image enhanced with " ++ Js.to_string superResValue
    ++ "x super resolution! Click Download to save."
  else "✅ Image enhanced successfully! Click Download to save.".

(** Clean up previous URL if exists *)
Definition release_enhanced (s : State) : State :=
  match enhancedImageUrl (ctl s) with
  | Some u => revokeObjectURL u s
  | None => s
  end.

(** The part of [enhanceImage] that follows a response with [response.ok],
    once its body has been read as a blob.  The count of processed images,
    kept by a function of the page if it defines one, is not part of the
    controller and is left out. *)
Definition enhance_success (superResValue : Js.num) (blob : string) (s : State) : State :=
  let s := release_enhanced s in
  let '(u, s) := createObjectURL (BlobOfResponse blob) s in
  let s := on_ctl (set_enhancedImageUrl (Some u)) s in
  let s := displayImage Enhanced (SrcObject u) s in
  (* Update enhanced stats: decode the original again for its size *)
  let s := add_job (EnhancedStatsImageJob superResValue (originalImage (ctl s))) s in
  let s := on_view (set_downloadBtn_disabled false) s in
  showStatus (success_message superResValue) "success" s.

(** [enhanceImage()] from the [await] on: [result] is the response, or the
    message of the error that [fetch] or the reading of the body threw. *)
Definition enhance_resume (superResValue : Js.num) (result : Response + string)
    (s : State) : State :=
  match result with
  | inl response =>
      if negb (ok response) then
        enhance_finally (enhance_catch (server_error response) s)
      else
        enhance_finally (enhance_success superResValue (body response) s)
  | inr message => enhance_finally (enhance_catch message s)
  end.

(** [originalImg.onload] of [enhanceImage] *)
Definition enhanced_stats_onload (scale : Js.num) (width height : Z) (s : State) : State :=
  let newWidth := Js.mul width scale in
  let newHeight := Js.mul height scale in
  on_view (set_stats Enhanced
    {| stats_content := StatsEnhanced newWidth newHeight scale;
       stats_shown := true |}) s.

Definition download_filename (f : File) (superResSelectValue now : string) : string :=
  let originalName := file_name f in
  let nameWithoutExt := Js.substring_to (Js.lastIndexOf "." originalName) originalName in
  let timestamp := Js.replace_all ":" "-" (String.substring 0 19 now) in
  let superResValue := Js.parseInt superResSelectValue in
  let scaleSuffix :=
    if Js.gtb superResValue 1 then "_" ++ Js.to_string superResValue ++ "x" else "" in
  "enhanced" ++ scaleSuffix ++ "_" ++ nameWithoutExt ++ "_" ++ timestamp ++ ".png".

(** [downloadImage()]; [now] is [new Date().toISOString()].  The anchor lives
    for the click only, which is all that is kept of it. *)
Definition downloadImage (now : string) (s : State) : State :=
  match enhancedImageUrl (ctl s) with
  | None => showStatus "No enhanced image to download" "error" s
  | Some u =>
      match currentImageFile (ctl s) with
      | None => emit (Uncaught (type_error "null (reading 'name')")) s
      | Some f =>
          let filename := download_filename f (superResSelect (inputs s)) now in
          let s := emit (AnchorClick u filename) s in
          showStatus ("📥 Download started: " ++ filename) "success" s
      end
  end.

Definition default_inputs : Controls :=
  {| imageInput := "";
     sharpnessSlider := "2";       (* value = 2.0 *)
     contrastSlider := "1.2";
     brightnessSlider := "1.1";
     colorSlider := "1.1";
     denoiseCheckbox := false;
     superResSelect := "1";
     autoEnhanceCheckbox := true;
     formatSelect := "png" |}.

Definition resetAll (s : State) : State :=
  (* Clear file input *)
  let s := on_inputs (set_imageInput "") s in
  (* Reset previews *)
  let s := resetImagePreview Original s in
  let s := resetImagePreview Enhanced s in
  (* Reset stats *)
  let s := on_view (hide_stats Original) s in
  let s := on_view (hide_stats Enhanced) s in
  (* Reset file info *)
  let s := on_view (set_fileInfo None) s in
  (* Reset buttons *)
  let s := on_view (set_enhanceBtn_disabled true) s in
  let s := on_view (set_downloadBtn_disabled true) s in
  (* Reset sliders to default *)
  let s := on_inputs (set_sharpnessSlider "2") s in
  let s := on_inputs (set_contrastSlider "1.2") s in
  let s := on_inputs (set_brightnessSlider "1.1") s in
  let s := on_inputs (set_colorSlider "1.1") s in
  let s := on_inputs (set_denoiseCheckbox false) s in
  let s := on_inputs (set_superResSelect "1") s in
  let s := on_inputs (set_autoEnhanceCheckbox true) s in
  let s := on_inputs (set_formatSelect "png") s in
  let s := updateSliders s in
  (* Clear variables *)
  let s := on_ctl (set_originalImage None) s in
  let s := on_ctl (set_enhancedImage None) s in
  let s := on_ctl (set_currentImageFile None) s in
  let s := match enhancedImageUrl (ctl s) with
           | Some u => on_ctl (set_enhancedImageUrl None) (revokeObjectURL u s)
           | None => s
           end in
  showStatus "Reset complete. Upload a new image to start." "success" s.

Definition health_request : Request :=
  {| method := "GET"; url := backendUrl ++ "/health"; query := []; form := [] |}.

(** [checkBackendConnection()], up to the [await]. *)
Definition checkBackendConnection (s : State) : State :=
  add_job HealthFetchJob (emit (Fetch health_request) s).

Definition health_resume (result : Response + string) (s : State) : State :=
  match result with
  | inl response =>
      on_view (set_backendStatus
                 (Some (if ok response then Connected else ConnectionIssue))) s
  | inr _ => on_view (set_backendStatus (Some NotReachable)) s
  end.

(** [setupMobileFeatures()]: the 8x option is disabled and a tip is due in
    two seconds.  The touch gestures only scale the images and are left out,
    and so is the field [maxFileSize], which is written here and never read. *)
Definition setupMobileFeatures (s : State) : State :=
  add_job MobileTipTimer (on_view (set_option8x_disabled true) s).

(** [init()]; the listeners it installs are the cases of [step] below, and
    the year in the footer is not modelled. *)
Definition init (s : State) : State :=
  let s := updateSliders s in
  let s := checkBackendConnection s in
  if isMobile (ctl s) then setupMobileFeatures s else s.

(** [new ImageEnhancer()] on a page whose controls and elements are as
    [page_inputs] and [page] when the script runs; [mobile] is what
    [checkIfMobile()] finds in the user agent. *)
Definition construct (mobile : bool) (page_inputs : Controls) (page : View) : State :=
  init {| ctl := {| originalImage := None;
                    enhancedImage := None;
                    currentImageFile := None;
                    enhancedImageUrl := None;
                    isMobile := mobile |};
          inputs := page_inputs;
          view := page;
          blobs := ∅;
          nextUrl := O;
          jobs := [];
          effects := [] |}.

(** ** Events *)

(** What the user does, and [Completed i o]: the [i]-th pending job ends
    with [o].  A prompt's answer and the clock's reading travel with the
    click that needs them. *)
Inductive Event :=
| FilesPicked (files : list File)
| FilesDropped (files : list File)
| SliderInput (which : Slider) (value : string)
| DenoiseToggled (checked : bool)
| SuperResChanged (value : string)
| FormatChanged (value : string)
| AutoEnhanceToggled (checked : bool)
| EnhanceClicked (answer : bool)
| DownloadClicked (now : string)
| ResetClicked
| CloseErrorClicked
| CancelClicked
| RetryClicked (answer : bool)
| ModalSwipedDown (modalId : Modal)
| Completed (i : nat) (o : Outcome).

Definition slider_input (which : Slider) (value : string) (s : State) : State :=
  match which with
  | Sharpness =>
      on_view (set_sharpnessValue (value ++ "x")) (on_inputs (set_sharpnessSlider value) s)
  | Contrast =>
      on_view (set_contrastValue (value ++ "x")) (on_inputs (set_contrastSlider value) s)
  | Brightness =>
      on_view (set_brightnessValue (value ++ "x")) (on_inputs (set_brightnessSlider value) s)
  | Color =>
      on_view (set_colorValue (value ++ "x")) (on_inputs (set_colorSlider value) s)
  end.

(** The listener of the retry button. *)
Definition retry (answer : bool) (s : State) : State :=
  let s := hideModal ErrorModal s in
  match currentImageFile (ctl s) with
  | Some _ => enhanceImage answer s
  | None => s
  end.

(** The continuation of job [j] on outcome [o], if [o] is a way for [j] to
    end; [s] no longer lists [j].  The handlers of a [FileReader] are set
    before [readAsDataURL] is called: [error] and [abort] reach theirs
    whether or not [loadstart] was delivered (a read whose first chunk
    fails ends without it), [load] comes after [loadstart] only. *)
Definition resume (j : Job) (o : Outcome) (s : State) : option State :=
  match j, o with
  | FileReaderJob file true, Load result => Some (reader_onload file result s)
  | FileReaderJob _ _, ReadError => Some (reader_onerror s)
  | FileReaderJob _ _, Abort => Some (reader_onabort s)
  | StatsImageJob statsId file _, ImgLoad w h => Some (stats_onload statsId file w h s)
  | StatsImageJob statsId _ _, ImgError => Some (stats_onerror statsId s)
  | EnhanceFetchJob v, Responded r => Some (enhance_resume v (inl r) s)
  | EnhanceFetchJob v, Rejected m => Some (enhance_resume v (inr m) s)
  | EnhancedStatsImageJob scale (Some _), ImgLoad w h =>
      Some (enhanced_stats_onload scale w h s)
  | EnhancedStatsImageJob _ _, ImgError => Some s
  | HealthFetchJob, Responded r => Some (health_resume (inl r) s)
  | HealthFetchJob, Rejected m => Some (health_resume (inr m) s)
  | ClearInputTimer, Elapsed => Some (on_inputs (set_imageInput "") s)
  | HideStatusTimer, Elapsed => Some (on_view (set_statusShown false) s)
  | MobileTipTimer, Elapsed =>
      Some (showStatus "📱 Controls are stacked for better mobile experience" "info" s)
  | _, _ => None
  end.

(** Job [i] gets the outcome [o]: [loadstart] leaves a read pending, as
    started; every other outcome that the job can have ends it. *)
Definition complete (i : nat) (o : Outcome) (s : State) : State :=
  match jobs s !! i with
  | None => s
  | Some j =>
      match j, o with
      | FileReaderJob file false, LoadStart =>
          reader_onloadstart (set_jobs (<[i := FileReaderJob file true]> (jobs s)) s)
      | _, _ =>
          match resume j o (set_jobs (delete i (jobs s)) s) with
          | Some s' => s'
          | None => s
          end
      end
  end.

(** One turn of the event loop.  A disabled button takes no click, a hidden
    modal none on its buttons, and a disabled option cannot be chosen. *)
Definition step (s : State) (e : Event) : State :=
  match e with
  | FilesPicked files =>
      let path := match files with
                  | f :: _ => "C:\fakepath\" ++ file_name f
                  | [] => ""
                  end in
      handleFileInputChange files (on_inputs (set_imageInput path) s)
  | FilesDropped files =>
      match files with
      | file :: _ => handleImageFile (Some file) s
      | [] => s
      end
  | SliderInput which value => slider_input which value s
  | DenoiseToggled checked => on_inputs (set_denoiseCheckbox checked) s
  | SuperResChanged value =>
      if String.eqb value "8" && option8x_disabled (view s) then s
      else
        showStatus ("Super resolution: " ++ Js.to_string (Js.parseInt value)
                    ++ "x selected") "success"
          (on_inputs (set_superResSelect value) s)
  | FormatChanged value => on_inputs (set_formatSelect value) s
  | AutoEnhanceToggled checked =>
      let s := on_inputs (set_autoEnhanceCheckbox checked) s in
      match checked, currentImageFile (ctl s) with
      | true, Some _ =>
          showStatus "Auto-enhance enabled. Apply default enhancements." "info" s
      | _, _ => s
      end
  | EnhanceClicked answer =>
      if enhanceBtn_disabled (view s) then s else enhanceImage answer s
  | DownloadClicked now =>
      if downloadBtn_disabled (view s) then s else downloadImage now s
  | ResetClicked => resetAll s
  | CloseErrorClicked =>
      if errorModal (view s) then hideModal ErrorModal s else s
  | CancelClicked =>
      if loadingModal (view s)
      then showStatus "Enhancement cancelled" "info" (hideModal LoadingModal s)
      else s
  | RetryClicked answer =>
      if errorModal (view s) then retry answer s else s
  | ModalSwipedDown modalId =>
      let shown := match modalId with
                   | ErrorModal => errorModal (view s)
                   | LoadingModal => loadingModal (view s)
                   end in
      if isMobile (ctl s) && shown then hideModal modalId s else s
  | Completed i o => complete i o s
  end.

Definition run (s : State) (es : list Event) : State := fold_left step es s.

(** Modelled from the spec: the page as [index.html], which is not among the
    sources, first shows it: the controls at their defaults, both actions
    disabled, no preview, no message. *)
Definition index_page : View :=
  let blank := {| img := None; placeholder_shown := true |} in
  let no_stats := {| stats_content := StatsBlank; stats_shown := false |} in
  {| enhanceBtn_disabled := true;
     downloadBtn_disabled := true;
     statusText := "";
     statusClass := "status";
     statusShown := false;
     loadingModal := false;
     loadingMessage := "";
     errorModal := false;
     errorMessage := "";
     originalPreview := blank;
     enhancedPreview := blank;
     originalStats := no_stats;
     enhancedStats := no_stats;
     fileInfo := None;
     sharpnessValue := "";
     contrastValue := "";
     brightnessValue := "";
     colorValue := "";
     mobileProcessingIndicator := None;
     backendStatus := None;
     option8x_disabled := false |}.

Definition initial (mobile : bool) : State := construct mobile default_inputs index_page.

(** The states the controller can be in: whatever page it starts on. *)
Definition reachable (s : State) : Prop :=
  exists mobile page_inputs page es, s = run (construct mobile page_inputs page) es.

(** ** Vocabulary of the properties *)

(** An entry of the object URL store that refers to an enhance response:
    a live object URL of the Enhanced Result. *)
Definition enhanced_result (entry : nat * Blob) : Prop :=
  match snd entry with
  | BlobOfResponse _ => True
  | BlobOfFile _ => False
  end.

#[global] Instance enhanced_result_dec (entry : nat * Blob) :
  Decision (enhanced_result entry) :=
  match entry as e return Decision (enhanced_result e) with
  | (_, BlobOfResponse _) => left I
  | (_, BlobOfFile _) => right (fun H => H)
  end.

(** The live object URLs, whatever they refer to. *)
Definition live_urls (s : State) : nat := size (blobs s).

(** A non-null [enhancedImageUrl] comes with a non-null [currentImageFile]. *)
Definition url_implies_file (s : State) : Prop :=
  enhancedImageUrl (ctl s) <> None -> currentImageFile (ctl s) <> None.

(** The slider value [v] denotes the number [q]. *)
Definition denotes (v : string) (q : Q) : Prop :=
  exists q', Js.decimal_value v = Some q' /\ (q' == q)%Q.

(** What object URLs and the selected file depend on: the store, the next
    URL, and the two controller fields. *)
Record Footprint := {
  fp_blobs : gmap nat Blob;
  fp_next : nat;
  fp_url : option nat;
  fp_file : option File
}.

Definition footprint (s : State) : Footprint :=
  {| fp_blobs := blobs s;
     fp_next := nextUrl s;
     fp_url := enhancedImageUrl (ctl s);
     fp_file := currentImageFile (ctl s) |}.

(** The store once the URL of the enhanced result, if any, is revoked. *)
Definition fp_revoke (p : Footprint) : gmap nat Blob :=
  match fp_url p with
  | Some u => delete u (fp_blobs p)
  | None => fp_blobs p
  end.

(** What a listener can do to the footprint: nothing, select a file, or
    reset. *)
Inductive fp_user (p : Footprint) : Footprint -> Prop :=
| fp_same : fp_user p p
| fp_select (f : File) :
    fp_user p {| fp_blobs := fp_blobs p; fp_next := fp_next p;
                 fp_url := fp_url p; fp_file := Some f |}
| fp_reset :
    fp_user p {| fp_blobs := fp_revoke p; fp_next := fp_next p;
                 fp_url := None; fp_file := None |}.

(** What any turn of the event loop can do to it: the above, or what the
    end of a file read or of an enhance request does. *)
Inductive fp_step (p : Footprint) : Footprint -> Prop :=
| fp_listener (q : Footprint) : fp_user p q -> fp_step p q
| fp_onload (f : File) :
    fp_step p {| fp_blobs := match fp_url p with
                             | Some u => delete u (<[fp_next p := BlobOfFile f]> (fp_blobs p))
                             | None => <[fp_next p := BlobOfFile f]> (fp_blobs p)
                             end;
                 fp_next := S (fp_next p); fp_url := None; fp_file := fp_file p |}
| fp_success (b : string) :
    fp_step p {| fp_blobs := <[fp_next p := BlobOfResponse b]> (fp_revoke p);
                 fp_next := S (fp_next p);
                 fp_url := Some (fp_next p); fp_file := fp_file p |}.

(** Every enhanced-result URL in the store is the one the controller holds. *)
Definition fp_owned (p : Footprint) : Prop :=
  forall u b, fp_blobs p !! u = Some (BlobOfResponse b) -> fp_url p = Some u.

(** Object URLs still to be handed out are not in the store. *)
Definition fp_fresh (p : Footprint) : Prop :=
  forall u, is_Some (fp_blobs p !! u) -> (u < fp_next p)%nat.

(** The footprint's reading of [url_implies_file]. *)
Definition fp_url_implies_file (p : Footprint) : Prop :=
  fp_url p <> None -> fp_file p <> None.

(** [s'] differs from [s] in the status line at most. *)
Definition same_but_status (s s' : State) : Prop :=
  ctl s' = ctl s /\ inputs s' = inputs s /\ blobs s' = blobs s
  /\ nextUrl s' = nextUrl s /\ effects s' = effects s
  /\ set_statusShown (statusShown (view s))
       (set_statusClass (statusClass (view s))
          (set_statusText (statusText (view s)) (view s'))) = view s.

(** [t] begins with [s]. *)
Definition begins_with (t s : string) : Prop :=
  exists post : string, t = s ++ post.

(** *** Sample inputs *)

Definition photo : File :=
  {| file_name := "cat.jpg"; file_type := Mime "image" "jpeg"; file_size := 2 * 1024 * 1024 |}.

Definition disk_image : File :=
  {| file_name := "backup.dmg";
     file_type := Mime "application" "x-apple-diskimage";
     file_size := 1000 |}.

Definition big_pdf : File :=
  {| file_name := "scan.pdf";
     file_type := Mime "application" "pdf";
     file_size := 20 * 1024 * 1024 |}.

Definition big_photo : File :=
  {| file_name := "pano.png"; file_type := Mime "image" "png"; file_size := 8 * 1024 * 1024 |}.

Definition png_ok : Response := {| status := 200; body := "PNG" |}.

Definition oom : Response := {| status := 500; body := "OOM" |}.

(** Pick [photo] and let its read finish.  On a fresh desktop page the read
    is the second pending job, after the health probe; on mobile the tip
    timer comes before it too. *)
Definition load_photo : list Event :=
  [FilesPicked [photo]; Completed 1 LoadStart; Completed 1 (Load "data:image/jpeg;base64,AAAA")].

Definition load_photo_mobile : list Event :=
  [FilesPicked [photo]; Completed 2 LoadStart; Completed 2 (Load "data:image/jpeg;base64,AAAA")].

(** Then enhance it: the request is the fifth pending job. *)
Definition enhance_photo : list Event :=
  load_photo ++ [EnhanceClicked true; Completed 4 (Responded png_ok)]%list.

(** Enhance, dismiss the loading modal, reset, and only then the response
    arrives; then click download. *)
Definition reset_in_flight : list Event :=
  load_photo ++ [EnhanceClicked true; CancelClicked; ResetClicked;
                 Completed 4 (Responded png_ok)]%list.


(** ** Device detection *)

(** The alternatives of the pattern in [checkIfMobile()]. *)
Definition mobile_tokens : list string :=
  ["iPhone"; "iPad"; "iPod"; "Android"; "webOS"; "BlackBerry"; "IEMobile"; "Opera Mini"].

(** A literal matches at the head of [s], under the [i] flag: characters are
    compared after [toUpperCase], which on one-byte code points moves the
    letters [a] to [z] only. *)
Fixpoint starts_with_ci (w s : string) : bool :=
  match w with
  | EmptyString => true
  | String c w' =>
      match s with
      | String d s' => Ascii.eqb (Js.upper c) (Js.upper d) && starts_with_ci w' s'
      | EmptyString => false
      end
  end.

Fixpoint search_ci (w s : string) : bool :=
  starts_with_ci w s
  || match s with
     | String _ s' => search_ci w s'
     | EmptyString => false
     end.

(** [checkIfMobile()], on [navigator.userAgent]. *)
Definition checkIfMobile (userAgent : string) : bool :=
  existsb (fun w => search_ci w userAgent) mobile_tokens.

(** ** Double tap to zoom *)

Module DoubleTap.

(** [img.style.transform]: unset until a gesture or a reset writes it. *)
Inductive Transform := Unset | Scale1 | Scale2.

(** [img.style.transformOrigin]: the percentages are kept as the touch and
    the rectangle they are computed from. *)
Inductive Origin :=
| OriginUnset
| Center
| At (clientX clientY rect_left rect_top rect_width rect_height : Q).

(** One image with its listener: [lastTap] is the listener's variable. *)
Record Zoom := {
  lastTap : Z;               (* milliseconds, 0 at first *)
  transform : Transform;
  transformOrigin : Origin
}.

(** The [touchstart] listener of [setupDoubleTapZoom()]: [currentTime] is
    [new Date().getTime()], [origin] what the first touch and the image's
    rectangle give.  Returns whether [preventDefault] was called. *)
Definition touchstart (currentTime : Z) (origin : Origin) (z : Zoom) : Zoom * bool :=
  let tapLength := currentTime - lastTap z in
  if (tapLength <? 300) && (0 <? tapLength) then
    (* Double tap detected *)
    match transform z with
    | Scale2 =>
        ({| lastTap := currentTime; transform := Scale1; transformOrigin := Center |}, true)
    | _ =>
        ({| lastTap := currentTime; transform := Scale2; transformOrigin := origin |}, true)
    end
  else
    ({| lastTap := currentTime; transform := transform z;
        transformOrigin := transformOrigin z |}, false).

(** Taps one after the other, each with its time and its origin. *)
Definition taps (z : Zoom) (ts : list (Z * Origin)) : Zoom :=
  fold_left (fun z t => fst (touchstart (fst t) (snd t) z)) ts z.

(** Each tap comes less than 300 ms, and at least 1 ms, after the one before;
    [t0] is the time of the tap before the first. *)
Fixpoint rapid (t0 : Z) (ts : list (Z * Origin)) : Prop :=
  match ts with
  | [] => True
  | t :: ts' => 0 < fst t - t0 < 300 /\ rapid (fst t) ts'
  end.

(** No tap comes less than 300 ms, and at least 1 ms, after the one before. *)
Fixpoint slow (t0 : Z) (ts : list (Z * Origin)) : Prop :=
  match ts with
  | [] => True
  | t :: ts' => (300 <= fst t - t0 \/ fst t - t0 <= 0) /\ slow (fst t) ts'
  end.

Definition zoomed (z : Zoom) : bool :=
  match transform z with Scale2 => true | _ => false end.

End DoubleTap.

(** ** More vocabulary *)

(** What the buttons and the value labels depend on. *)
Record Face := {
  fc_enhance_disabled : bool;
  fc_download_disabled : bool;
  fc_url : option nat;
  fc_file : option File;
  fc_sliders : string * string * string * string;
  fc_labels : string * string * string * string
}.

Definition face (s : State) : Face :=
  {| fc_enhance_disabled := enhanceBtn_disabled (view s);
     fc_download_disabled := downloadBtn_disabled (view s);
     fc_url := enhancedImageUrl (ctl s);
     fc_file := currentImageFile (ctl s);
     fc_sliders := (sharpnessSlider (inputs s), contrastSlider (inputs s),
                    brightnessSlider (inputs s), colorSlider (inputs s));
     fc_labels := (sharpnessValue (view s), contrastValue (view s),
                   brightnessValue (view s), colorValue (view s)) |}.

(** An enabled download button has a result to download. *)
Definition download_backed (p : Face) : Prop :=
  fc_download_disabled p = false -> fc_url p <> None.

(** A tuple of four, one per slider, with the entry of [which] replaced. *)
Definition set_of (which : Slider) (v : string)
    (t : string * string * string * string) : string * string * string * string :=
  let '(a, b, c, d) := t in
  match which with
  | Sharpness => (v, b, c, d)
  | Contrast => (a, v, c, d)
  | Brightness => (a, b, v, d)
  | Color => (a, b, c, v)
  end.

(** What a turn of the event loop can do to the face. *)
Inductive face_step (p : Face) : Face -> Prop :=
| face_same : face_step p p
| face_select (f : File) :
    face_step p {| fc_enhance_disabled := fc_enhance_disabled p;
                   fc_download_disabled := fc_download_disabled p;
                   fc_url := fc_url p; fc_file := Some f;
                   fc_sliders := fc_sliders p; fc_labels := fc_labels p |}
| face_slider (which : Slider) (v : string) :
    face_step p {| fc_enhance_disabled := fc_enhance_disabled p;
                   fc_download_disabled := fc_download_disabled p;
                   fc_url := fc_url p; fc_file := fc_file p;
                   fc_sliders := set_of which v (fc_sliders p);
                   fc_labels := set_of which (v ++ "x") (fc_labels p) |}
| face_onload :
    face_step p {| fc_enhance_disabled := false; fc_download_disabled := true;
                   fc_url := None; fc_file := fc_file p;
                   fc_sliders := fc_sliders p; fc_labels := fc_labels p |}
| face_success (u : nat) :
    face_step p {| fc_enhance_disabled := fc_enhance_disabled p;
                   fc_download_disabled := false;
                   fc_url := Some u; fc_file := fc_file p;
                   fc_sliders := fc_sliders p; fc_labels := fc_labels p |}
| face_reset :
    face_step p {| fc_enhance_disabled := true; fc_download_disabled := true;
                   fc_url := None; fc_file := None;
                   fc_sliders := ("2", "1.2", "1.1", "1.1");
                   fc_labels := ("2x", "1.2x", "1.1x", "1.1x") |}.

(** Each label shows its slider's value, followed by [x]. *)
Definition labels_follow (p : Face) : Prop :=
  let '(a, b, c, d) := fc_sliders p in
  fc_labels p = (a ++ "x", b ++ "x", c ++ "x", d ++ "x").

(** The URL the controller holds is live, refers to an enhance response and
    was handed out before. *)
Definition fp_url_is_result (p : Footprint) : Prop :=
  forall u, fp_url p = Some u ->
            (u < fp_next p)%nat /\ exists b, fp_blobs p !! u = Some (BlobOfResponse b).

(** The events of the controls that hold the settings of an enhancement. *)
Definition setting (e : Event) : bool :=
  match e with
  | SliderInput _ _ | DenoiseToggled _ | SuperResChanged _ | FormatChanged _
  | AutoEnhanceToggled _ => true
  | _ => false
  end.

(** The characters of [s] differ from [c]. *)
Fixpoint without (c : ascii) (s : string) : Prop :=
  match s with
  | EmptyString => True
  | String d r => d <> c /\ without c r
  end.


(** * Properties *)

(** ** Strings and patterns *)

Lemma append_cons (c : ascii) (a b : string) : String c a ++ b = String c (a ++ b).
Proof. reflexivity. Qed.

Lemma append_assoc (a b c : string) : (a ++ b) ++ c = a ++ (b ++ c).
Proof.
  induction a as [|x a IH]; [reflexivity|].
  rewrite !append_cons. now f_equal.
Qed.


Lemma occurs_in_middle (pre s post : string) : Js.occurs_in s (pre ++ s ++ post).
Proof. now exists pre, post. Qed.

Lemma occurs_in_append_r (a s t : string) : Js.occurs_in s t -> Js.occurs_in s (a ++ t).
Proof.
  intros (pre & post & ->). exists (a ++ pre), post. now rewrite append_assoc.
Qed.


Lemma ends_with_append (a t s : string) : Js.ends_with t s -> Js.ends_with (a ++ t) s.
Proof. intros (pre & ->). exists (a ++ pre). now rewrite append_assoc. Qed.

Lemma ends_with_refl (s : string) : Js.ends_with s s.
Proof. now exists EmptyString. Qed.

Lemma re_here_literal (w s : string) :
  Js.re_here (Js.literal_then_any w) s = true <-> exists post, s = w ++ post.
Proof.
  revert s. induction w as [|c w IH]; intros s; simpl.
  - split; [intros _; now exists s|intros _]. now destruct s.
  - destruct s as [|d s].
    + split; [discriminate | intros (post & H); discriminate].
    + rewrite andb_true_iff, Ascii.eqb_eq, IH. split.
      * intros (-> & post & ->). now exists post.
      * intros (post & H). rewrite append_cons in H. injection H as -> ->.
        split; [reflexivity | now exists post].
Qed.

Lemma re_search_literal (w t : string) :
  Js.re_search (Js.literal_then_any w) t = true <-> Js.occurs_in w t.
Proof.
  induction t as [|d t IH]; simpl.
  - rewrite orb_false_r, re_here_literal. split.
    + intros (post & H). now exists EmptyString, post.
    + intros (pre & post & H). destruct pre; [now exists post | discriminate].
  - rewrite orb_true_iff, re_here_literal, IH. split.
    + intros [(post & H) | (pre & post & ->)].
      * now exists EmptyString, post.
      * now exists (String d pre), post.
    + intros (pre & post & H). destruct pre as [|x pre].
      * left. now exists post.
      * right. rewrite append_cons in H. injection H as -> ->. now exists pre, post.
Qed.

(** The type check of [handleImageFile] accepts exactly the types in which
    the letters [image] occur, wherever they stand. *)
Lemma image_pattern_occurs (t : string) :
  Js.re_search image_pattern t = true <-> Js.occurs_in "image" t.
Proof. apply (re_search_literal "image"). Qed.

Lemma not_occurs_in (w t : string) :
  Js.re_search (Js.literal_then_any w) t = false -> ~ Js.occurs_in w t.
Proof. intros H Hin. apply re_search_literal in Hin. congruence. Qed.

Lemma split_second_cons (c d : ascii) (r : string) :
  Js.split_second c (String d r)
  = if Ascii.eqb c d then Some (Js.up_to c r) else Js.split_second c r.
Proof. reflexivity. Qed.

Lemma split_second_slash (a b : string) :
  exists sub, Js.split_second "/" (a ++ "/" ++ b) = Some sub.
Proof.
  induction a as [|c a IH].
  - exists (Js.up_to "/" b). reflexivity.
  - rewrite append_cons, split_second_cons.
    destruct (Ascii.eqb "/" c); [eexists; reflexivity | exact IH].
Qed.

(** A type that passes the type check has a part after its slash. *)
Lemma accepted_type_has_subtype (f : File) :
  Js.re_search image_pattern (type_string f) = true ->
  exists sub, Js.split_second "/" (type_string f) = Some sub.
Proof.
  unfold type_string. destruct (file_type f) as [|t sub]; intros H.
  - discriminate.
  - apply split_second_slash.
Qed.

(** ** The footprint of every handler *)

Lemma footprint_showStatus m t s : footprint (showStatus m t s) = footprint s.
Proof. unfold showStatus. destruct (String.eqb t "success"); reflexivity. Qed.

Lemma footprint_on_view f s : footprint (on_view f s) = footprint s.
Proof. reflexivity. Qed.

Lemma footprint_on_inputs f s : footprint (on_inputs f s) = footprint s.
Proof. reflexivity. Qed.

Lemma footprint_add_job j s : footprint (add_job j s) = footprint s.
Proof. reflexivity. Qed.

Lemma footprint_emit e s : footprint (emit e s) = footprint s.
Proof. reflexivity. Qed.

Lemma footprint_set_jobs j s : footprint (set_jobs j s) = footprint s.
Proof. reflexivity. Qed.

Lemma footprint_hideModal m s : footprint (hideModal m s) = footprint s.
Proof. now destruct m. Qed.

Lemma footprint_showMobileProcessing b m s :
  footprint (showMobileProcessing b m s) = footprint s.
Proof. reflexivity. Qed.

Lemma footprint_enhance_finally s : footprint (enhance_finally s) = footprint s.
Proof. unfold enhance_finally. cbn. now destruct (isMobile (ctl s)). Qed.

Lemma footprint_enhance_catch m s : footprint (enhance_catch m s) = footprint s.
Proof. reflexivity. Qed.

Create Rewrite HintDb fp.

#[local] Hint Rewrite footprint_showStatus footprint_on_view footprint_on_inputs
  footprint_add_job footprint_emit footprint_set_jobs footprint_hideModal
  footprint_showMobileProcessing footprint_enhance_finally footprint_enhance_catch : fp.

Ltac fp_quiet := autorewrite with fp; first [apply fp_same | apply fp_listener, fp_same].

Lemma footprint_handleImageFile file s :
  fp_user (footprint s) (footprint (handleImageFile file s)).
Proof.
  unfold handleImageFile. destruct file as [f|]; [|fp_quiet].
  destruct (negb _); [fp_quiet|].
  destruct (_ >? _); [fp_quiet|].
  autorewrite with fp. exact (fp_select (footprint s) f).
Qed.

Lemma footprint_enhanceImage a s : footprint (enhanceImage a s) = footprint s.
Proof.
  unfold enhanceImage. destruct (currentImageFile (ctl s)); [|now autorewrite with fp].
  cbn zeta. destruct (isMobile (ctl s) && _); cbn.
  - destruct a; cbn; [|reflexivity]. destruct (isMobile (ctl s)); now autorewrite with fp.
  - destruct (isMobile (ctl s)); now autorewrite with fp.
Qed.

Lemma footprint_downloadImage now s : footprint (downloadImage now s) = footprint s.
Proof.
  unfold downloadImage. destruct (enhancedImageUrl _); [|now autorewrite with fp].
  destruct (currentImageFile _); now autorewrite with fp.
Qed.

Lemma footprint_resetAll s : fp_user (footprint s) (footprint (resetAll s)).
Proof.
  unfold resetAll. cbn zeta. autorewrite with fp.
  pose proof (fp_reset (footprint s)) as H.
  unfold fp_revoke, footprint in *; cbn in *.
  destruct (enhancedImageUrl (ctl s)) eqn:E; cbn; rewrite ?E; exact H.
Qed.

Lemma footprint_reader_onload f r s :
  fp_step (footprint s) (footprint (reader_onload f r s)).
Proof.
  unfold reader_onload. cbn zeta.
  match goal with
  | |- fp_step _ (footprint (match ?x with _ => _ end)) => destruct x
  end; autorewrite with fp.
  all: pose proof (fp_onload (footprint s) f) as H.
  all: unfold resetEnhancedPreview, updateImageStats, footprint in *; cbn in *.
  all: destruct (enhancedImageUrl (ctl s)) eqn:E; cbn; rewrite ?E; exact H.
Qed.

Lemma footprint_enhance_success v b s :
  footprint (enhance_success v b s)
  = {| fp_blobs := <[nextUrl s := BlobOfResponse b]> (fp_revoke (footprint s));
       fp_next := S (nextUrl s);
       fp_url := Some (nextUrl s);
       fp_file := currentImageFile (ctl s) |}.
Proof.
  unfold enhance_success, release_enhanced, fp_revoke, footprint. cbn.
  now destruct (enhancedImageUrl (ctl s)).
Qed.

Lemma footprint_enhance_resume v r s :
  fp_step (footprint s) (footprint (enhance_resume v r s)).
Proof.
  unfold enhance_resume. destruct r as [r|m]; [|fp_quiet].
  destruct (negb (ok r)); autorewrite with fp; [fp_quiet|].
  rewrite footprint_enhance_success. exact (fp_success (footprint s) (body r)).
Qed.

Lemma footprint_resume j o s s' :
  resume j o s = Some s' -> fp_step (footprint s) (footprint s').
Proof.
  intros H.
  destruct j as [f [|]|p f u|v|v [d|]| | | |], o; simpl in H; try discriminate;
    injection H as <-.
  all: try fp_quiet.
  - apply footprint_reader_onload.
  - unfold stats_onload. cbn zeta. destruct (Js.split_second _ _); fp_quiet.
  - exact (footprint_enhance_resume v (inl r) s).
Qed.

Lemma footprint_complete i o s : fp_step (footprint s) (footprint (complete i o s)).
Proof.
  unfold complete. destruct (jobs s !! i) as [j|]; [|fp_quiet].
  assert (G : fp_step (footprint s)
                (footprint match resume j o (set_jobs (delete i (jobs s)) s) with
                           | Some s' => s'
                           | None => s
                           end)).
  { destruct (resume _ _ _) eqn:E; [|fp_quiet].
    apply footprint_resume in E. now rewrite footprint_set_jobs in E. }
  destruct j as [f [|]|p f u|v|v d| | | |]; try exact G.
  destruct o; apply fp_listener, fp_same.
Qed.

(** A listener leaves the footprint alone, selects a file, or resets. *)
Lemma listener_abstracts s e :
  (forall i o, e <> Completed i o) -> fp_user (footprint s) (footprint (step s e)).
Proof.
  intros He. destruct e; unfold step; cbv beta iota zeta.
  - unfold handleFileInputChange. destruct files as [|f fs]; autorewrite with fp; [fp_quiet|].
    match goal with
    | |- context [handleImageFile ?a ?b] => pose proof (footprint_handleImageFile a b) as H
    end.
    now rewrite footprint_on_inputs in H.
  - destruct files; [fp_quiet | apply footprint_handleImageFile].
  - destruct which; fp_quiet.
  - fp_quiet.
  - destruct (_ && _); fp_quiet.
  - fp_quiet.
  - destruct checked; [|fp_quiet].
    destruct (currentImageFile (ctl _)); fp_quiet.
  - destruct (enhanceBtn_disabled _); [fp_quiet|]. rewrite footprint_enhanceImage. fp_quiet.
  - destruct (downloadBtn_disabled _); [fp_quiet|]. rewrite footprint_downloadImage. fp_quiet.
  - apply footprint_resetAll.
  - destruct (errorModal _); fp_quiet.
  - destruct (loadingModal _); fp_quiet.
  - destruct (errorModal _); [|fp_quiet]. unfold retry. cbv zeta.
    destruct (currentImageFile _); [rewrite footprint_enhanceImage|]; fp_quiet.
  - destruct (_ && _); fp_quiet.
  - now destruct (He i o).
Qed.

Lemma step_abstracts s e : fp_step (footprint s) (footprint (step s e)).
Proof.
  destruct e; try (apply fp_listener, listener_abstracts; discriminate).
  apply footprint_complete.
Qed.

Lemma footprint_construct mobile page_inputs page :
  footprint (construct mobile page_inputs page)
  = {| fp_blobs := ∅; fp_next := O; fp_url := None; fp_file := None |}.
Proof. now destruct mobile. Qed.

(** ** Invariants of the footprint *)

Lemma fp_revoke_no_result p u b :
  fp_owned p -> fp_revoke p !! u <> Some (BlobOfResponse b).
Proof.
  intros Hp H. unfold fp_revoke in H. destruct (fp_url p) as [u0|] eqn:E.
  - destruct (decide (u0 = u)) as [->|Hne].
    + now rewrite lookup_delete_eq in H.
    + rewrite lookup_delete_ne in H by exact Hne.
      apply Hp in H. congruence.
  - apply Hp in H. congruence.
Qed.

Lemma fp_owned_user p q : fp_user p q -> fp_owned p -> fp_owned q.
Proof.
  intros [|f|] Hp; [exact Hp | exact Hp |].
  intros u b H. cbn in *. now apply fp_revoke_no_result in H.
Qed.

Lemma fp_owned_step p q : fp_step p q -> fp_owned p -> fp_owned q.
Proof.
  intros [q' Hq|f|b0] Hp.
  - now apply (fp_owned_user p).
  - intros u b H. cbn in *. exfalso.
    assert (G : fp_blobs p !! u = Some (BlobOfResponse b) /\ fp_url p <> Some u).
    { destruct (fp_url p) as [u0|] eqn:E.
      - destruct (decide (u0 = u)) as [->|Hne]; [now rewrite lookup_delete_eq in H|].
        rewrite lookup_delete_ne in H by exact Hne.
        destruct (decide (fp_next p = u)) as [<-|Hn].
        + now rewrite lookup_insert_eq in H.
        + rewrite lookup_insert_ne in H by exact Hn. split; congruence.
      - destruct (decide (fp_next p = u)) as [<-|Hn].
        + now rewrite lookup_insert_eq in H.
        + now rewrite lookup_insert_ne in H by exact Hn. }
    destruct G as [G1 G2]. now apply Hp in G1.
  - intros u b H. cbn in *.
    destruct (decide (fp_next p = u)) as [<-|Hn]; [reflexivity|].
    rewrite lookup_insert_ne in H by exact Hn.
    now apply fp_revoke_no_result in H.
Qed.

Lemma fp_revoke_fresh p u :
  fp_fresh p -> is_Some (fp_revoke p !! u) -> (u < fp_next p)%nat.
Proof.
  intros Hp H. apply Hp. unfold fp_revoke in H. destruct (fp_url p) as [u0|]; [|exact H].
  destruct (decide (u0 = u)) as [->|Hne].
  - rewrite lookup_delete_eq in H. now destruct H.
  - now rewrite lookup_delete_ne in H.
Qed.

Lemma fp_fresh_step p q : fp_step p q -> fp_fresh p -> fp_fresh q.
Proof.
  intros [q' [|f|]|f|b0] Hp u H; cbn in *.
  - now apply Hp.
  - now apply Hp.
  - now apply fp_revoke_fresh.
  - destruct (decide (fp_next p = u)) as [<-|Hn]; [lia|].
    enough (is_Some (fp_blobs p !! u)) by (apply Hp in H0; lia).
    destruct (fp_url p) as [u0|].
    + destruct (decide (u0 = u)) as [->|Hne].
      * rewrite lookup_delete_eq in H. now destruct H.
      * now rewrite lookup_delete_ne, lookup_insert_ne in H.
    + now rewrite lookup_insert_ne in H.
  - destruct (decide (fp_next p = u)) as [<-|Hn]; [lia|].
    rewrite lookup_insert_ne in H by exact Hn.
    apply fp_revoke_fresh in H; [lia | exact Hp].
Qed.

Lemma reachable_invariant (P : Footprint -> Prop) :
  P {| fp_blobs := ∅; fp_next := O; fp_url := None; fp_file := None |} ->
  (forall p q, fp_step p q -> P p -> P q) ->
  forall s, reachable s -> P (footprint s).
Proof.
  intros H0 Hstep s (mobile & page_inputs & page & es & ->).
  unfold run. rewrite <- fold_left_rev_right.
  induction (rev es) as [|e l IH]; simpl.
  - now rewrite footprint_construct.
  - eapply Hstep; [apply step_abstracts | exact IH].
Qed.

Lemma reachable_owned s : reachable s -> fp_owned (footprint s).
Proof.
  apply (reachable_invariant fp_owned); [|exact fp_owned_step].
  intros u b H. cbn in H. now rewrite lookup_empty in H.
Qed.

Lemma reachable_fresh s : reachable s -> fp_fresh (footprint s).
Proof.
  apply (reachable_invariant fp_fresh); [|exact fp_fresh_step].
  intros u H. cbn in H. rewrite lookup_empty in H. now destruct H.
Qed.

(** A map whose keys are all the same key has at most one entry. *)
Lemma size_at_most_one {A} (m : gmap nat A) :
  (forall i j, is_Some (m !! i) -> is_Some (m !! j) -> i = j) -> (size m <= 1)%nat.
Proof.
  intros H. destruct (size m) as [|n] eqn:E; [lia|].
  destruct (map_size_ne_0_lookup_1 m) as (i & x & Hi); [lia|].
  assert (Hd : delete i m = ∅).
  { apply map_empty. intros j. destruct (decide (i = j)) as [->|Hne].
    - apply lookup_delete_eq.
    - rewrite lookup_delete_ne by exact Hne.
      destruct (m !! j) eqn:Ej; [|reflexivity].
      exfalso. apply Hne, H; eauto. }
  rewrite <- (insert_delete_id m i x Hi), Hd in E.
  rewrite map_size_insert_None, map_size_empty in E by apply lookup_empty. lia.
Qed.

(** ** Object URLs *)

(** C1, as stated, fails: after the controller has loaded one file and
    enhanced it, two object URLs it created are live, the one that
    [updateImageStats] made to measure the file, which nothing revokes, and
    the one of the enhanced result. *)
Lemma stats_url_stays_live :
  ~ (live_urls (run (initial false) enhance_photo) <= 1)%nat.
Proof. vm_compute. lia. Qed.

(** C1, amended: in every state the controller can reach, at most one object
    URL of the Enhanced Result is live, and it is the one the controller
    holds in [enhancedImageUrl]; when [enhanceImage] creates a new one, the
    clean-up that precedes the creation has left no such URL live. *)
Theorem enhanced_result_url_unique (s : State) :
  reachable s ->
  (size (filter enhanced_result (blobs s)) <= 1)%nat
  /\ (forall u b, blobs s !! u = Some (BlobOfResponse b) ->
                  enhancedImageUrl (ctl s) = Some u)
  /\ filter enhanced_result (blobs (release_enhanced s)) = ∅.
Proof.
  intros Hs. pose proof (reachable_owned s Hs) as Ho.
  split; [|split].
  - apply size_at_most_one. intros i j [x Hi] [y Hj].
    apply map_lookup_filter_Some in Hi as [Hi Pi].
    apply map_lookup_filter_Some in Hj as [Hj Pj].
    destruct x as [f|b]; [destruct Pi|]. destruct y as [f|b']; [destruct Pj|].
    apply Ho in Hi, Hj. cbn in Hi, Hj. congruence.
  - exact Ho.
  - apply map_empty. intros u. apply map_lookup_filter_None. right.
    intros [f|b] Hu; [intros []|exfalso].
    apply (fp_revoke_no_result (footprint s) u b Ho).
    unfold release_enhanced in Hu. unfold fp_revoke. cbn.
    now destruct (enhancedImageUrl (ctl s)).
Qed.

(** After a load and an enhancement, on desktop. *)
Lemma enhanced_result_url_unique_witness :
  reachable (run (initial false) enhance_photo)
  /\ (size (filter enhanced_result (blobs (run (initial false) enhance_photo))) <= 1)%nat.
Proof.
  assert (H : reachable (run (initial false) enhance_photo)).
  { exists false, default_inputs, index_page, enhance_photo. reflexivity. }
  split; [exact H | apply (enhanced_result_url_unique _ H)].
Defined.

(** Object URLs are never handed out twice while live. *)
Lemma object_urls_fresh (s : State) (u : nat) :
  reachable s -> is_Some (blobs s !! u) -> (u < nextUrl s)%nat.
Proof. intros Hs. exact (reachable_fresh s Hs u). Qed.

(** ** Selected file and enhanced result *)

Lemma fp_url_implies_file_user (p q : Footprint) :
  fp_user p q -> fp_url_implies_file p -> fp_url_implies_file q.
Proof.
  unfold fp_url_implies_file. intros [|f|] Hp; cbn; [exact Hp | discriminate | congruence].
Qed.

Lemma fp_url_implies_file_step (p q : Footprint) :
  fp_step p q -> fp_file p <> None -> fp_url_implies_file p -> fp_url_implies_file q.
Proof.
  intros [q' Hq|f|b] Hf Hp.
  - now apply (fp_url_implies_file_user p).
  - intros H. now cbn in H.
  - intros _. exact Hf.
Qed.

(** No listener breaks the invariant. *)
Lemma url_implies_file_listener (s : State) (e : Event) :
  (forall i o, e <> Completed i o) -> url_implies_file s -> url_implies_file (step s e).
Proof.
  intros He. apply (fp_url_implies_file_user (footprint s) (footprint (step s e))).
  now apply listener_abstracts.
Qed.

(** Nor does the end of a job, as long as a file is selected then. *)
Lemma url_implies_file_selected (s : State) (e : Event) :
  currentImageFile (ctl s) <> None -> url_implies_file s -> url_implies_file (step s e).
Proof.
  apply (fp_url_implies_file_step (footprint s) (footprint (step s e))), step_abstracts.
Qed.

(** C10 fails on the code: when the response of an enhance request arrives
    after a reset, [enhancedImageUrl] is set while [currentImageFile] is
    null, the download button is enabled, and the click on it throws on
    [this.currentImageFile.name]. *)
Theorem stale_response_breaks_download :
  let s := run (initial false) reset_in_flight in
  url_implies_file (run (initial false) (load_photo ++ [EnhanceClicked true; CancelClicked; ResetClicked])%list)
  /\ enhancedImageUrl (ctl s) = Some 1%nat
  /\ currentImageFile (ctl s) = None
  /\ ~ url_implies_file s
  /\ downloadBtn_disabled (view s) = false
  /\ effects (step s (DownloadClicked "2026-11-02T09:26:31.000Z"))
     = (effects s ++ [Uncaught "TypeError: Cannot read properties of null (reading 'name')"])%list.
Proof.
  cbv zeta. split; [vm_compute; congruence|].
  split; [vm_compute; reflexivity|].
  split; [vm_compute; reflexivity|].
  split; [|split; vm_compute; reflexivity].
  intros H. enough (G : @None File <> None) by congruence.
  apply H. vm_compute. discriminate.
Qed.

(** ** Accepting a file *)

Lemma showStatus_error (message : string) (s : State) :
  let s' := showStatus message "error" s in
  same_but_status s s' /\ jobs s' = jobs s
  /\ statusText (view s') = message
  /\ statusClass (view s') = "status error"
  /\ statusShown (view s') = true.
Proof.
  destruct s as [c i v b n j e]. destruct v. cbv zeta. unfold same_but_status.
  repeat split; reflexivity.
Qed.

(** When [handleImageFile] takes the file on and when it turns it down. *)
Lemma handleImageFile_cases (f : File) (s : State) :
  handleImageFile (Some f) s
  = if negb (Js.re_search image_pattern (type_string f)) then
      showStatus "Please select an image file (JPG, PNG, etc.)" "error" s
    else if file_size f >? maxSize (isMobile (ctl s)) then
      showStatus ("File too large! Please select image under "
                  ++ maxMB (isMobile (ctl s)) ++ ".") "error" s
    else add_job (FileReaderJob f false) (on_ctl (set_currentImageFile (Some f)) s).
Proof. reflexivity. Qed.

(** The part of C2 that holds: a file in whose type the letters [image]
    do not occur is turned down with a message, and nothing else changes. *)
Lemma other_types_rejected (f : File) (s : State) :
  ~ Js.occurs_in "image" (type_string f) ->
  let s' := handleImageFile (Some f) s in
  same_but_status s s' /\ jobs s' = jobs s
  /\ statusText (view s') = "Please select an image file (JPG, PNG, etc.)"
  /\ statusClass (view s') = "status error".
Proof.
  intros H. cbv zeta. rewrite handleImageFile_cases.
  destruct (Js.re_search image_pattern (type_string f)) eqn:E.
  - now apply image_pattern_occurs in E.
  - cbn [negb].
    destruct (showStatus_error "Please select an image file (JPG, PNG, etc.)" s)
      as (H1 & H2 & H3 & H4 & _).
    split; [exact H1|]. auto.
Qed.

(** A file is taken on exactly when [image] occurs in its type and its size
    is within the ceiling; it is the Selected File from then on, before it
    has been read. *)
Lemma handleImageFile_accepts (f : File) (s : State) :
  Js.occurs_in "image" (type_string f) ->
  file_size f <= maxSize (isMobile (ctl s)) ->
  let s' := handleImageFile (Some f) s in
  currentImageFile (ctl s') = Some f
  /\ jobs s' = (jobs s ++ [FileReaderJob f false])%list
  /\ view s' = view s /\ effects s' = effects s /\ blobs s' = blobs s.
Proof.
  intros Ht Hs. cbv zeta. rewrite handleImageFile_cases.
  apply image_pattern_occurs in Ht. rewrite Ht. cbn [negb].
  destruct (file_size f >? maxSize (isMobile (ctl s))) eqn:E; [lia|].
  repeat split; reflexivity.
Qed.

(** C2 fails on the code: the type of a macOS disk image does not begin
    with [image/], yet the pattern ['image.*'] finds [image] in it, and the
    file becomes the Selected File and is read. *)
Theorem disk_image_becomes_selected :
  let s := step (initial false) (FilesDropped [disk_image]) in
  type_string disk_image = "application/x-apple-diskimage"
  /\ ~ begins_with (type_string disk_image) "image/"
  /\ Js.re_search image_pattern (type_string disk_image) = true
  /\ currentImageFile (ctl (initial false)) = None
  /\ currentImageFile (ctl s) = Some disk_image
  /\ In (FileReaderJob disk_image false) (jobs s).
Proof.
  cbv zeta. split; [reflexivity|]. split.
  - intros (post & H). discriminate H.
  - repeat split; try reflexivity. vm_compute. tauto.
Qed.

(** C4, as stated, fails: a file over the ceiling whose type does not pass
    the type check is turned down for its type, and the message names no
    limit. *)
Lemma oversized_pdf_type_error :
  let s := step (initial false) (FilesDropped [big_pdf]) in
  file_size big_pdf > 10 * 1024 * 1024
  /\ statusText (view s) = "Please select an image file (JPG, PNG, etc.)"
  /\ ~ Js.occurs_in "10MB" (statusText (view s)).
Proof.
  cbv zeta. split; [reflexivity|]. split; [reflexivity|].
  apply not_occurs_in. reflexivity.
Qed.

(** C4, amended: a file over the active ceiling (5*1024*1024 bytes on
    mobile, 10*1024*1024 on desktop) is turned down: nothing but the status
    line changes, so it does not become the Selected File, no read starts
    and no request is sent.  If its type passes the type check the message
    names the limit, [5MB] or [10MB]; otherwise the message is the one about
    the type. *)
Theorem oversized_file_rejected (f : File) (s : State) :
  file_size f > (if isMobile (ctl s) then 5 * 1024 * 1024 else 10 * 1024 * 1024) ->
  let s' := handleImageFile (Some f) s in
  let limit := if isMobile (ctl s) then "5MB" else "10MB" in
  same_but_status s s' /\ jobs s' = jobs s
  /\ statusClass (view s') = "status error" /\ statusShown (view s') = true
  /\ (Js.re_search image_pattern (type_string f) = true ->
      statusText (view s') = "File too large! Please select image under " ++ limit ++ "."
      /\ Js.occurs_in limit (statusText (view s')))
  /\ (Js.re_search image_pattern (type_string f) = false ->
      statusText (view s') = "Please select an image file (JPG, PNG, etc.)").
Proof.
  intros Hsize. cbv zeta. rewrite handleImageFile_cases.
  fold (maxSize (isMobile (ctl s))) in Hsize. fold (maxMB (isMobile (ctl s))).
  destruct (Js.re_search image_pattern (type_string f)) eqn:E; cbn [negb].
  - destruct (file_size f >? maxSize (isMobile (ctl s))) eqn:E'; [|lia].
    match goal with
    | |- context [showStatus ?m _ _] =>
        destruct (showStatus_error m s) as (H1 & H2 & H3 & H4 & H5)
    end.
    split; [exact H1|]. split; [exact H2|]. split; [exact H4|]. split; [exact H5|].
    split; [intros _|discriminate]. split; [exact H3|].
    rewrite H3. apply occurs_in_append_r, (occurs_in_middle "").
  - match goal with
    | |- context [showStatus ?m _ _] =>
        destruct (showStatus_error m s) as (H1 & H2 & H3 & H4 & H5)
    end.
    split; [exact H1|]. split; [exact H2|]. split; [exact H4|]. split; [exact H5|].
    split; [discriminate | intros _; exact H3].
Qed.

(** An 8MB PNG on mobile: the error names [5MB] and no file is selected. *)
Lemma oversized_file_rejected_witness :
  file_size big_photo > 5 * 1024 * 1024
  /\ statusText (view (handleImageFile (Some big_photo) (initial true)))
     = "File too large! Please select image under 5MB."
  /\ ctl (handleImageFile (Some big_photo) (initial true)) = ctl (initial true).
Proof.
  assert (H : file_size big_photo
              > (if isMobile (ctl (initial true))
                 then 5 * 1024 * 1024 else 10 * 1024 * 1024)) by reflexivity.
  pose proof (oversized_file_rejected big_photo (initial true) H) as G.
  cbv zeta in G. destruct G as ((G1 & _) & _ & _ & _ & G2 & _).
  split; [reflexivity|]. split; [|exact G1].
  apply G2. reflexivity.
Defined.

(** ** A read that fails *)

(** C3, as stated, fails: when the read of an accepted file fails, the file
    is, and stays, the Selected File. *)
Lemma unread_file_stays_selected :
  let s := run (initial false)
             [FilesPicked [photo]; Completed 1 LoadStart; Completed 1 ReadError] in
  currentImageFile (ctl (initial false)) = None
  /\ statusText (view s) = "❌ Failed to load image"
  /\ currentImageFile (ctl s) = Some photo.
Proof. cbv zeta. repeat split; reflexivity. Qed.

(** C3, amended: a file becomes the Selected File when it passes validation,
    before it is read.  When the read then fails or is cancelled, be it
    before or after its [loadstart], an error is shown, [Failed to load
    image] for a failure and [Image loading cancelled] for a cancellation,
    and nothing but the status line changes: the Selected File stays the
    file it was, the image data, the previews, the stats, the Enhanced
    Result and the enablement of the enhance and download actions are as
    before, no request is sent, and the read is pending no more. *)
Theorem failed_read_changes_status_only (s : State) (i : nat) (file : File)
    (started : bool) (o : Outcome) :
  jobs s !! i = Some (FileReaderJob file started) ->
  o = ReadError \/ o = Abort ->
  let s' := step s (Completed i o) in
  let message := match o with
                 | ReadError => "❌ Failed to load image"
                 | _ => "❌ Image loading cancelled"
                 end in
  same_but_status s s'
  /\ jobs s' = delete i (jobs s)
  /\ statusText (view s') = message
  /\ statusClass (view s') = "status error"
  /\ statusShown (view s') = true
  /\ currentImageFile (ctl s') = currentImageFile (ctl s)
  /\ enhanceBtn_disabled (view s') = enhanceBtn_disabled (view s)
  /\ "❌ Failed to load image" <> "❌ Image loading cancelled"
  /\ (forall s0 f,
        Js.re_search image_pattern (type_string f) = true ->
        file_size f <= maxSize (isMobile (ctl s0)) ->
        currentImageFile (ctl (handleImageFile (Some f) s0)) = Some f
        /\ jobs (handleImageFile (Some f) s0) = (jobs s0 ++ [FileReaderJob f false])%list).
Proof.
  intros Hj Ho. cbv zeta.
  assert (Hsel : forall s0 f,
             Js.re_search image_pattern (type_string f) = true ->
             file_size f <= maxSize (isMobile (ctl s0)) ->
             currentImageFile (ctl (handleImageFile (Some f) s0)) = Some f
             /\ jobs (handleImageFile (Some f) s0) = (jobs s0 ++ [FileReaderJob f false])%list).
  { intros s0 f Ht Hs. apply image_pattern_occurs in Ht.
    destruct (handleImageFile_accepts f s0 Ht Hs) as (H1 & H2 & _). split; assumption. }
  unfold step, complete. rewrite Hj.
  assert (G : forall m, 
             let s' := showStatus m "error" (set_jobs (delete i (jobs s)) s) in
             same_but_status s s' /\ jobs s' = delete i (jobs s)
             /\ statusText (view s') = m /\ statusClass (view s') = "status error"
             /\ statusShown (view s') = true
             /\ currentImageFile (ctl s') = currentImageFile (ctl s)
             /\ enhanceBtn_disabled (view s') = enhanceBtn_disabled (view s)).
  { intros m. destruct s as [c n v b k j e]. destruct v. cbv zeta.
    unfold same_but_status. repeat split; reflexivity. }
  destruct Ho as [-> | ->], started; cbn [resume]; unfold reader_onerror, reader_onabort.
  1, 2: destruct (G "❌ Failed to load image") as (G1 & G2 & G3 & G4 & G5 & G6 & G7).
  3, 4: destruct (G "❌ Image loading cancelled") as (G1 & G2 & G3 & G4 & G5 & G6 & G7).
  all: split; [exact G1|]; split; [exact G2|]; split; [exact G3|]; split; [exact G4|].
  all: split; [exact G5|]; split; [exact G6|]; split; [exact G7|].
  all: split; [discriminate | exact Hsel].
Qed.

(** The read of [photo] fails before its [loadstart]. *)
Lemma failed_read_changes_status_only_witness :
  let s := run (initial false) [FilesPicked [photo]] in
  jobs s !! 1%nat = Some (FileReaderJob photo false)
  /\ statusText (view (step s (Completed 1 ReadError))) = "❌ Failed to load image"
  /\ currentImageFile (ctl (step s (Completed 1 ReadError))) = Some photo
  /\ jobs (step s (Completed 1 ReadError)) = delete 1%nat (jobs s).
Proof.
  cbv zeta.
  assert (H : jobs (run (initial false) [FilesPicked [photo]]) !! 1%nat
              = Some (FileReaderJob photo false)) by reflexivity.
  pose proof (failed_read_changes_status_only _ 1%nat photo false ReadError H
                (or_introl eq_refl)) as G.
  cbv zeta in G. destruct G as (_ & G0 & G1 & _ & _ & G2 & _).
  split; [exact H|]. split; [exact G1|]. split; [|exact G0]. rewrite G2. reflexivity.
Defined.

(** ** Enhancing *)

(** What [enhanceImage] does once it goes ahead: it touches the loading
    indicators and the status line, sends the request and waits. *)
Lemma enhanceImage_proceeds (file : File) (v : Js.num) (s : State) :
  let s' := add_job (EnhanceFetchJob v)
              (emit (Fetch (enhance_request file v s))
                 (showStatus (loading_message v) "loading"
                    (showLoading true
                       (on_view (set_loadingMessage (loading_message v))
                          (if isMobile (ctl s)
                           then showMobileProcessing true (loading_message v) s
                           else s))))) in
  ctl s' = ctl s /\ inputs s' = inputs s /\ blobs s' = blobs s
  /\ jobs s' = (jobs s ++ [EnhanceFetchJob v])%list
  /\ effects s' = (effects s ++ [Fetch (enhance_request file v s)])%list
  /\ downloadBtn_disabled (view s') = downloadBtn_disabled (view s).
Proof. cbv zeta. destruct (isMobile (ctl s)); repeat split; reflexivity. Qed.

(** The request of [enhanceImage], spelled out: a [POST] to
    [/enhance-advanced] of the backend, the file as the form field [file],
    and the six parameters in the query, read off the controls. *)
Lemma enhance_request_content (file : File) (v : Js.num) (s : State) :
  enhance_request file v s
  =
  {| method := "POST";
     url := "https://your-pythonanywhere-backend.com/enhance-advanced";
     query := [("sharpness", sharpnessSlider (inputs s));
               ("contrast", contrastSlider (inputs s));
               ("brightness", brightnessSlider (inputs s));
               ("color", colorSlider (inputs s));
               ("denoise", if denoiseCheckbox (inputs s) then "true" else "false");
               ("super_resolution", Js.to_string v)];
     form := [("file", file)] |}.
Proof. unfold enhance_request, params. destruct (denoiseCheckbox (inputs s)); reflexivity. Qed.

(** C5: with a file selected, an enhance invocation on mobile with a factor
    of 4 or more first asks for confirmation; the request is sent after the
    prompt and only on a yes, and on a no nothing happens at all: no
    request, no message, no change of state.  On desktop, or with a factor
    below 4, the request is sent without a prompt.  Without a file nothing
    is asked and nothing is sent. *)
Theorem enhance_confirmation (s : State) (answer : bool) :
  let v := Js.parseInt (superResSelect (inputs s)) in
  let s' := enhanceImage answer s in
  (forall file,
     currentImageFile (ctl s) = Some file ->
     isMobile (ctl s) = true -> Js.geb v 4 = true ->
     (answer = true ->
      effects s' = (effects s ++ [Confirm (confirm_message v) true;
                                  Fetch (enhance_request file v s)])%list)
     /\ (answer = false ->
         s' = emit (Confirm (confirm_message v) false) s
         /\ ctl s' = ctl s /\ inputs s' = inputs s /\ view s' = view s
         /\ blobs s' = blobs s /\ jobs s' = jobs s
         /\ effects s' = (effects s ++ [Confirm (confirm_message v) false])%list))
  /\ (forall file,
        currentImageFile (ctl s) = Some file ->
        isMobile (ctl s) = false \/ Js.geb v 4 = false ->
        effects s' = (effects s ++ [Fetch (enhance_request file v s)])%list)
  /\ (currentImageFile (ctl s) = None -> effects s' = effects s).
Proof.
  destruct s as [[oi ei cf eu mob] inp vw bl nx jb ef].
  cbv zeta. unfold enhanceImage. cbn [ctl inputs currentImageFile isMobile].
  split; [|split].
  - intros file -> -> Hv. rewrite Hv. cbn [andb]. split; intros ->; cbn [negb].
    + cbn. now rewrite <- app_assoc.
    + repeat split; reflexivity.
  - intros file -> Hc.
    assert (E : mob && Js.geb (Js.parseInt (superResSelect inp)) 4 = false).
    { destruct Hc as [-> | ->]; [reflexivity | apply andb_false_r]. }
    rewrite E. cbn [andb]. now destruct mob.
  - intros ->. reflexivity.
Qed.

(** On mobile with the factor 4 chosen, the prompt is declined. *)
Lemma enhance_confirmation_witness :
  let s := run (initial true) (load_photo_mobile ++ [SuperResChanged "4"])%list in
  currentImageFile (ctl s) = Some photo
  /\ isMobile (ctl s) = true
  /\ Js.geb (Js.parseInt (superResSelect (inputs s))) 4 = true
  /\ effects (enhanceImage false s)
     = (effects s
        ++ [Confirm "⚠️ 4x upscaling may be slow on mobile. Continue?" false])%list.
Proof.
  cbv zeta. set (s := run (initial true) (load_photo_mobile ++ [SuperResChanged "4"])%list).
  assert (Hf : currentImageFile (ctl s) = Some photo) by (vm_compute; reflexivity).
  assert (Hm : isMobile (ctl s) = true) by (vm_compute; reflexivity).
  assert (Hv : Js.geb (Js.parseInt (superResSelect (inputs s))) 4 = true)
    by (vm_compute; reflexivity).
  destruct (enhance_confirmation s false) as (G & _).
  destruct (G photo Hf Hm Hv) as (_ & G2).
  destruct (G2 eq_refl) as (_ & _ & _ & _ & _ & _ & G1).
  split; [exact Hf|]. split; [exact Hm|]. split; [exact Hv|].
  rewrite G1. vm_compute. reflexivity.
Defined.

(** The prompt and the request of one [enhanceImage], in the order they
    happen. *)
Lemma enhanceImage_effects (file : File) (answer : bool) (s : State) :
  currentImageFile (ctl s) = Some file ->
  let v := Js.parseInt (superResSelect (inputs s)) in
  let asked := isMobile (ctl s) && Js.geb v 4 in
  effects (enhanceImage answer s)
  = (effects s
     ++ (if asked then [Confirm (confirm_message v) answer] else [])
     ++ (if asked && negb answer then [] else [Fetch (enhance_request file v s)]))%list.
Proof.
  destruct s as [[oi ei cf eu mob] inp vw bl nx jb ef].
  cbv zeta. unfold enhanceImage. cbn [ctl inputs currentImageFile isMobile effects].
  intros ->. destruct (mob && Js.geb (Js.parseInt (superResSelect inp)) 4) eqn:E.
  - cbn [andb]. destruct answer; cbn [negb].
    + destruct mob; [|discriminate]. cbn. now rewrite <- app_assoc.
    + reflexivity.
  - cbn [andb]. now destruct mob.
Qed.



(** ** Reset *)

(** C7: whatever the state, after a reset no file is selected, the
    parameters are at their defaults (sharpness 2.0, contrast 1.2,
    brightness 1.1, color 1.1, no denoising, factor 1), the enhanced result
    is gone and its object URL revoked, the file input is empty and takes a
    new file, and the enhance and download buttons are disabled. *)
Theorem reset_restores_defaults (s : State) :
  let s' := step s ResetClicked in
  currentImageFile (ctl s') = None
  /\ originalImage (ctl s') = None
  /\ enhancedImage (ctl s') = None
  /\ enhancedImageUrl (ctl s') = None
  /\ (forall u, enhancedImageUrl (ctl s) = Some u -> blobs s' !! u = None)
  /\ (forall im, img (enhancedPreview (view s')) = Some im ->
                 im = {| img_src := SrcEmpty; img_shown := false |})
  /\ stats_shown (enhancedStats (view s')) = false
  /\ inputs s' = default_inputs
  /\ denotes (sharpnessSlider (inputs s')) 2.0
  /\ denotes (contrastSlider (inputs s')) 1.2
  /\ denotes (brightnessSlider (inputs s')) 1.1
  /\ denotes (colorSlider (inputs s')) 1.1
  /\ denoiseCheckbox (inputs s') = false
  /\ Js.parseInt (superResSelect (inputs s')) = Some 1
  /\ imageInput (inputs s') = ""
  /\ enhanceBtn_disabled (view s') = true
  /\ downloadBtn_disabled (view s') = true.
Proof.
  cbv zeta. change (step s ResetClicked) with (resetAll s).
  assert (Hi : inputs (resetAll s) = default_inputs).
  { unfold resetAll. destruct (enhancedImageUrl _); reflexivity. }
  assert (Hc : ctl (resetAll s)
               = {| originalImage := None; enhancedImage := None;
                    currentImageFile := None; enhancedImageUrl := None;
                    isMobile := isMobile (ctl s) |}).
  { unfold resetAll. cbn. destruct (enhancedImageUrl (ctl s)) eqn:E; cbn;
      unfold set_currentImageFile, set_enhancedImage, set_originalImage; cbn;
      rewrite ?E; reflexivity. }
  assert (Hb : enhanceBtn_disabled (view (resetAll s)) = true
               /\ downloadBtn_disabled (view (resetAll s)) = true
               /\ stats_shown (enhancedStats (view (resetAll s))) = false).
  { unfold resetAll. cbn. destruct (enhancedImageUrl (ctl s)); repeat split; reflexivity. }
  assert (Hd : forall v q q', Js.decimal_value v = Some q' -> (q' == q)%Q -> denotes v q).
  { intros v q q' H1 H2. exists q'. split; assumption. }
  destruct Hb as (Hb1 & Hb2 & Hb3).
  split; [rewrite Hc; reflexivity|]. split; [rewrite Hc; reflexivity|].
  split; [rewrite Hc; reflexivity|]. split; [rewrite Hc; reflexivity|].
  split.
  { intros u Hu. unfold resetAll. cbn. rewrite Hu. cbn. apply lookup_delete_eq. }
  split.
  { intros im. unfold resetAll. cbn.
    destruct (enhancedImageUrl (ctl s)); cbn;
      destruct (img (enhancedPreview (view s))); cbn; congruence. }
  split; [exact Hb3|]. split; [exact Hi|].
  split; [rewrite Hi; apply (Hd "2" 2.0%Q (2 # 1)%Q); [vm_compute|]; reflexivity|].
  split; [rewrite Hi; apply (Hd "1.2" 1.2%Q (12 # 10)%Q); [vm_compute|]; reflexivity|].
  split; [rewrite Hi; apply (Hd "1.1" 1.1%Q (11 # 10)%Q); [vm_compute|]; reflexivity|].
  split; [rewrite Hi; apply (Hd "1.1" 1.1%Q (11 # 10)%Q); [vm_compute|]; reflexivity|].
  split; [rewrite Hi; reflexivity|].
  split; [rewrite Hi; vm_compute; reflexivity|].
  split; [rewrite Hi; reflexivity|].
  split; [exact Hb1 | exact Hb2].
Qed.

(** A reset after a load and an enhancement. *)
Lemma reset_restores_defaults_witness :
  let s := run (initial false) enhance_photo in
  enhancedImageUrl (ctl s) = Some 1%nat
  /\ blobs (step s ResetClicked) !! 1%nat = None
  /\ currentImageFile (ctl (step s ResetClicked)) = None
  /\ downloadBtn_disabled (view (step s ResetClicked)) = true.
Proof.
  cbv zeta. set (s := run (initial false) enhance_photo).
  assert (Hu : enhancedImageUrl (ctl s) = Some 1%nat) by (vm_compute; reflexivity).
  pose proof (reset_restores_defaults s) as G. cbv zeta in G.
  destruct G as (G1 & _ & _ & _ & G5 & G').
  split; [exact Hu|]. split; [exact (G5 1%nat Hu)|]. split; [exact G1|].
  apply G'.
Defined.

(** ** Displayed sizes *)





(** ** The output format *)

Lemma download_filename_png (f : File) (superResSelectValue now : string) :
  Js.ends_with (download_filename f superResSelectValue now) ".png".
Proof.
  unfold download_filename. cbv zeta.
  do 6 apply ends_with_append. apply ends_with_refl.
Qed.

Lemma effects_showStatus (message type_ : string) (s : State) :
  effects (showStatus message type_ s) = effects s.
Proof. unfold showStatus. destruct (String.eqb type_ "success"); reflexivity. Qed.

(** C9: whatever the output-format selector is set to, the query of the
    enhance request has the keys sharpness, contrast, brightness, color,
    denoise and super_resolution, in this order and no other, the request
    and everything else [enhanceImage] and [downloadImage] do to the outside
    are the same as with any other setting, and the name of the downloaded
    file ends in [.png]. *)
Theorem output_format_ignored (s : State) (fmt : string) :
  let s' := step s (FormatChanged fmt) in
  let keys := ["sharpness"; "contrast"; "brightness"; "color"; "denoise";
               "super_resolution"] in
  (forall file v,
     map fst (query (enhance_request file v s')) = keys
     /\ enhance_request file v s' = enhance_request file v s)
  /\ (forall answer, effects (enhanceImage answer s') = effects (enhanceImage answer s))
  /\ (forall answer req,
        In (Fetch req) (effects (enhanceImage answer s')) ->
        In (Fetch req) (effects s) \/ map fst (query req) = keys)
  /\ (forall now, effects (downloadImage now s') = effects (downloadImage now s))
  /\ (forall now u name,
        In (AnchorClick u name) (effects (downloadImage now s')) ->
        In (AnchorClick u name) (effects s) \/ Js.ends_with name ".png").
Proof.
  cbv zeta. change (step s (FormatChanged fmt)) with (on_inputs (set_formatSelect fmt) s).
  set (s' := on_inputs (set_formatSelect fmt) s).
  assert (He : forall answer, effects (enhanceImage answer s') = effects (enhanceImage answer s)).
  { intros answer. destruct (currentImageFile (ctl s)) as [file|] eqn:Hf.
    - rewrite (enhanceImage_effects file answer s' Hf),
        (enhanceImage_effects file answer s Hf).
      reflexivity.
    - unfold enhanceImage. change (currentImageFile (ctl s')) with (currentImageFile (ctl s)).
      rewrite Hf, !effects_showStatus. reflexivity. }
  assert (Hd : forall now, effects (downloadImage now s') = effects (downloadImage now s)).
  { intros now. unfold s'.
    destruct s as [[oi ei cf eu mob] [ii s1 s2 s3 s4 dn sr ae fm] vw bl nx jb ef].
    unfold downloadImage. cbn [ctl inputs currentImageFile enhancedImageUrl superResSelect
      on_inputs set_formatSelect set_inputs].
    destruct eu; [destruct cf|]; reflexivity. }
  split; [intros file v; split; reflexivity|].
  split; [exact He|]. split; [|split; [exact Hd|]].
  - intros answer req. rewrite He.
    destruct (currentImageFile (ctl s)) as [file|] eqn:Hf.
    + rewrite (enhanceImage_effects file answer s Hf). cbv zeta.
      intros Hin. apply in_app_or in Hin as [Hin|Hin]; [left; exact Hin|right].
      apply in_app_or in Hin as [Hin|Hin].
      * destruct (isMobile (ctl s) && _); [|destruct Hin].
        destruct Hin as [Hin|[]]. discriminate Hin.
      * destruct (isMobile (ctl s) && _ && negb answer); [destruct Hin|].
        destruct Hin as [Hin|[]]. injection Hin as <-. reflexivity.
    + unfold enhanceImage. rewrite Hf, effects_showStatus.
      intros Hin. left. exact Hin.
  - intros now u name. rewrite Hd. unfold downloadImage.
    destruct (enhancedImageUrl (ctl s)) as [u0|].
    + destruct (currentImageFile (ctl s)) as [f|].
      * cbv zeta. rewrite effects_showStatus. unfold emit. cbn [effects set_effects].
        intros Hin. apply in_app_or in Hin as [Hin|[Hin|[]]]; [left; exact Hin|right].
        injection Hin as _ <-. apply download_filename_png.
      * unfold emit. cbn [effects set_effects].
        intros Hin. apply in_app_or in Hin as [Hin|[Hin|[]]]; [left; exact Hin|].
        discriminate Hin.
    + rewrite effects_showStatus. intros Hin. left. exact Hin.
Qed.

(** The request that goes out with the format set to [jpeg]. *)
Lemma output_format_ignored_witness :
  let s := step (run (initial false) load_photo) (FormatChanged "jpeg") in
  let req := enhance_request photo (Some 1) s in
  In (Fetch req) (effects (enhanceImage true s))
  /\ map fst (query req)
     = ["sharpness"; "contrast"; "brightness"; "color"; "denoise"; "super_resolution"].
Proof.
  cbv zeta.
  set (s0 := run (initial false) load_photo).
  assert (Hin : In (Fetch (enhance_request photo (Some 1) (step s0 (FormatChanged "jpeg"))))
                   (effects (enhanceImage true (step s0 (FormatChanged "jpeg"))))).
  { vm_compute. right. left. reflexivity. }
  pose proof (output_format_ignored s0 "jpeg") as G. cbv zeta in G.
  destruct G as (_ & _ & G & _).
  split; [exact Hin|].
  destruct (G true _ Hin) as [Hold | Hkeys]; [|exact Hkeys].
  reflexivity.
Defined.

(** * Further properties *)

(** ** Buttons and labels *)

Lemma face_showStatus m t s : face (showStatus m t s) = face s.
Proof. unfold showStatus. destruct (String.eqb t "success"); reflexivity. Qed.

Lemma face_add_job j s : face (add_job j s) = face s.
Proof. reflexivity. Qed.

Lemma face_emit e s : face (emit e s) = face s.
Proof. reflexivity. Qed.

Lemma face_set_jobs j s : face (set_jobs j s) = face s.
Proof. reflexivity. Qed.

Lemma face_hideModal m s : face (hideModal m s) = face s.
Proof. destruct m; reflexivity. Qed.

Lemma face_enhance_finally s : face (enhance_finally s) = face s.
Proof. unfold enhance_finally. cbn. destruct (isMobile (ctl s)); reflexivity. Qed.

Lemma face_enhance_catch m s : face (enhance_catch m s) = face s.
Proof. reflexivity. Qed.

Create Rewrite HintDb face.

#[local] Hint Rewrite face_showStatus face_add_job face_emit face_set_jobs face_hideModal
  face_enhance_finally face_enhance_catch : face.

Lemma face_enhanceImage a s : face (enhanceImage a s) = face s.
Proof.
  unfold enhanceImage. destruct (currentImageFile (ctl s)); [|autorewrite with face; reflexivity].
  cbn zeta. destruct (isMobile (ctl s) && _); cbn.
  - destruct a; cbn; [|reflexivity].
    destruct (isMobile (ctl s)); autorewrite with face; reflexivity.
  - destruct (isMobile (ctl s)); autorewrite with face; reflexivity.
Qed.

Lemma face_downloadImage now s : face (downloadImage now s) = face s.
Proof.
  unfold downloadImage. destruct (enhancedImageUrl _); [|autorewrite with face; reflexivity].
  destruct (currentImageFile _); autorewrite with face; reflexivity.
Qed.

Ltac face_quiet := autorewrite with face; apply face_same.

Lemma face_handleImageFile file s : face_step (face s) (face (handleImageFile file s)).
Proof.
  unfold handleImageFile. destruct file as [f|]; [|face_quiet].
  destruct (negb _); [face_quiet|].
  destruct (_ >? _); [face_quiet|].
  autorewrite with face. exact (face_select (face s) f).
Qed.

Lemma face_reader_onload f r s : face_step (face s) (face (reader_onload f r s)).
Proof.
  unfold reader_onload. cbn zeta.
  match goal with
  | |- face_step _ (face (match ?x with _ => _ end)) => destruct x
  end; autorewrite with face.
  all: pose proof (face_onload (face s)) as H.
  all: unfold resetEnhancedPreview, updateImageStats, face in *; cbn in *.
  all: destruct (enhancedImageUrl (ctl s)) eqn:E; cbn; rewrite ?E; exact H.
Qed.

Lemma face_enhance_success v b s : face_step (face s) (face (enhance_success v b s)).
Proof.
  pose proof (face_success (face s) (nextUrl s)) as H.
  unfold enhance_success, release_enhanced, face in *; cbn in *.
  destruct (enhancedImageUrl (ctl s)) eqn:E; cbn; rewrite ?E; exact H.
Qed.

Lemma face_resetAll s : face_step (face s) (face (resetAll s)).
Proof.
  unfold resetAll. cbn zeta. rewrite face_showStatus.
  pose proof (face_reset (face s)) as H.
  unfold face in *; cbn in *.
  destruct (enhancedImageUrl (ctl s)) eqn:E; cbn; rewrite ?E; exact H.
Qed.

Lemma face_resume j o s s' : resume j o s = Some s' -> face_step (face s) (face s').
Proof.
  intros H.
  destruct j as [f [|]|p f u|v|v [d|]| | | |], o; simpl in H; try discriminate;
    injection H as <-.
  all: try face_quiet.
  all: try apply face_reader_onload.
  all: try (destruct p; apply face_same).
  all: try (destruct (ok r); apply face_same).
  - unfold stats_onload. cbn zeta. destruct (Js.split_second _ _); [|face_quiet].
    destruct p; apply face_same.
  - unfold enhance_resume. destruct (negb (ok r)); autorewrite with face;
      [apply face_same | apply face_enhance_success].
Qed.

Lemma face_complete i o s : face_step (face s) (face (complete i o s)).
Proof.
  unfold complete. destruct (jobs s !! i) as [j|]; [|apply face_same].
  assert (G : face_step (face s)
                (face match resume j o (set_jobs (delete i (jobs s)) s) with
                      | Some s' => s'
                      | None => s
                      end)).
  { destruct (resume _ _ _) eqn:E; [|apply face_same].
    apply face_resume in E. rewrite face_set_jobs in E. exact E. }
  destruct j as [f [|]|p f u|v|v d| | | |]; try exact G.
  destruct o; apply face_same.
Qed.

Lemma face_abstracts s e : face_step (face s) (face (step s e)).
Proof.
  destruct e; unfold step; cbv beta iota zeta.
  - unfold handleFileInputChange. destruct files as [|f fs]; autorewrite with face;
      [apply face_same|].
    match goal with
    | |- context [handleImageFile ?a ?b] => exact (face_handleImageFile a b)
    end.
  - destruct files; [apply face_same | apply face_handleImageFile].
  - pose proof (face_slider (face s) which value) as H.
    destruct which; exact H.
  - apply face_same.
  - destruct (_ && _); autorewrite with face; apply face_same.
  - apply face_same.
  - destruct checked; [|apply face_same].
    destruct (currentImageFile (ctl _)); autorewrite with face; apply face_same.
  - destruct (enhanceBtn_disabled _); [apply face_same|].
    rewrite face_enhanceImage. apply face_same.
  - destruct (downloadBtn_disabled _); [apply face_same|].
    rewrite face_downloadImage. apply face_same.
  - apply face_resetAll.
  - destruct (errorModal _); autorewrite with face; apply face_same.
  - destruct (loadingModal _); autorewrite with face; apply face_same.
  - destruct (errorModal _); [|apply face_same]. unfold retry. cbv zeta.
    destruct (currentImageFile _); [rewrite face_enhanceImage|];
      autorewrite with face; apply face_same.
  - destruct (_ && _); autorewrite with face; apply face_same.
  - apply face_complete.
Qed.

Lemma face_construct mobile page_inputs page :
  face (construct mobile page_inputs page)
  = {| fc_enhance_disabled := enhanceBtn_disabled page;
       fc_download_disabled := downloadBtn_disabled page;
       fc_url := None; fc_file := None;
       fc_sliders := (sharpnessSlider page_inputs, contrastSlider page_inputs,
                      brightnessSlider page_inputs, colorSlider page_inputs);
       fc_labels := (sharpnessSlider page_inputs ++ "x", contrastSlider page_inputs ++ "x",
                     brightnessSlider page_inputs ++ "x", colorSlider page_inputs ++ "x") |}.
Proof. destruct mobile; reflexivity. Qed.

Lemma face_run_invariant (P : Face -> Prop) (s : State) (es : list Event) :
  (forall p q, face_step p q -> P p -> P q) -> P (face s) -> P (face (run s es)).
Proof.
  intros Hstep. revert s. induction es as [|e es IH]; intros s H; [exact H|].
  apply IH. apply (Hstep (face s)); [apply face_abstracts | exact H].
Qed.

Lemma download_backed_step p q : face_step p q -> download_backed p -> download_backed q.
Proof.
  unfold download_backed. intros [|f|which v| |u|] H; cbn; try exact H; discriminate.
Qed.

Lemma labels_follow_step p q : face_step p q -> labels_follow p -> labels_follow q.
Proof.
  unfold labels_follow.
  intros [|f|which v| |u|]; cbn; try (intros H; exact H).
  - destruct (fc_sliders p) as [[[a b] c] d], (fc_labels p) as [[[a' b'] c'] d'].
    intros H. injection H as -> -> -> ->. destruct which; reflexivity.
  - reflexivity.
Qed.

(** X1: at every moment the four value labels show the values of their
    sliders, each followed by [x], whatever page the controller starts on
    and whatever happens: [init] writes them, every slider input writes its
    own, and a reset rewrites all four. *)
Theorem labels_show_slider_values (s : State) :
  reachable s ->
  sharpnessValue (view s) = sharpnessSlider (inputs s) ++ "x"
  /\ contrastValue (view s) = contrastSlider (inputs s) ++ "x"
  /\ brightnessValue (view s) = brightnessSlider (inputs s) ++ "x"
  /\ colorValue (view s) = colorSlider (inputs s) ++ "x".
Proof.
  intros (mobile & page_inputs & page & es & ->).
  assert (H : labels_follow (face (run (construct mobile page_inputs page) es))).
  { apply face_run_invariant; [exact labels_follow_step|].
    rewrite face_construct. reflexivity. }
  unfold labels_follow, face in H. cbn in H. injection H as -> -> -> ->.
  repeat split; reflexivity.
Qed.

(** Two slider moves with a load between them. *)
Lemma labels_show_slider_values_witness :
  let s := run (initial true)
             (SliderInput Contrast "1.7" :: load_photo_mobile ++ [SliderInput Color "0.4"])%list in
  reachable s /\ contrastValue (view s) = "1.7x" /\ colorValue (view s) = "0.4x".
Proof.
  cbv zeta.
  set (es := (SliderInput Contrast "1.7" :: load_photo_mobile ++ [SliderInput Color "0.4"])%list).
  assert (H : reachable (run (initial true) es)).
  { exists true, default_inputs, index_page, es. reflexivity. }
  destruct (labels_show_slider_values _ H) as (_ & G2 & _ & G4).
  split; [exact H|]. split; [rewrite G2 | rewrite G4]; vm_compute; reflexivity.
Defined.

(** X2: on a page that starts with the download button disabled, the button
    is enabled only while the controller holds an enhanced result: the
    guard of [downloadImage] against a missing result is never met by a
    click. *)
Theorem download_enabled_has_result (mobile : bool) (page_inputs : Controls) (page : View)
    (es : list Event) :
  downloadBtn_disabled page = true ->
  let s := run (construct mobile page_inputs page) es in
  downloadBtn_disabled (view s) = false -> enhancedImageUrl (ctl s) <> None.
Proof.
  intros Hpage. cbv zeta.
  apply (face_run_invariant download_backed); [exact download_backed_step|].
  rewrite face_construct. unfold download_backed. cbn. rewrite Hpage. discriminate.
Qed.

Lemma download_enabled_has_result_witness :
  downloadBtn_disabled index_page = true
  /\ downloadBtn_disabled (view (run (initial false) enhance_photo)) = false
  /\ enhancedImageUrl (ctl (run (initial false) enhance_photo)) <> None.
Proof.
  assert (H1 : downloadBtn_disabled index_page = true) by reflexivity.
  assert (H2 : downloadBtn_disabled (view (run (initial false) enhance_photo)) = false)
    by (vm_compute; reflexivity).
  split; [exact H1|]. split; [exact H2|].
  exact (download_enabled_has_result false default_inputs index_page enhance_photo H1 H2).
Defined.

(** ** Taking a file on, and loading it *)

(** X3: a file is taken on, that is selected and handed to the reader,
    exactly when the letters [image] occur in its type and its size does not
    exceed the ceiling; the ceiling itself is allowed, and a file without a
    type is always turned down.  A file not taken on changes the status line
    only. *)
Theorem file_taken_iff (f : File) (s : State) :
  let s' := handleImageFile (Some f) s in
  let fits := Js.occurs_in "image" (type_string f)
              /\ file_size f <= maxSize (isMobile (ctl s)) in
  (fits <-> jobs s' = (jobs s ++ [FileReaderJob f false])%list)
  /\ (fits -> currentImageFile (ctl s') = Some f /\ view s' = view s)
  /\ (~ fits -> same_but_status s s' /\ jobs s' = jobs s
                /\ statusClass (view s') = "status error")
  /\ (file_size f = maxSize (isMobile (ctl s)) -> Js.occurs_in "image" (type_string f) ->
      currentImageFile (ctl s') = Some f)
  /\ (file_type f = NoType -> jobs s' = jobs s).
Proof.
  cbv zeta.
  assert (Hno : ~ (Js.occurs_in "image" (type_string f)
                   /\ file_size f <= maxSize (isMobile (ctl s))) ->
                same_but_status s (handleImageFile (Some f) s)
                /\ jobs (handleImageFile (Some f) s) = jobs s
                /\ statusClass (view (handleImageFile (Some f) s)) = "status error").
  { intros Hn. rewrite handleImageFile_cases.
    destruct (Js.re_search image_pattern (type_string f)) eqn:E; cbn [negb].
    - apply image_pattern_occurs in E.
      destruct (file_size f >? maxSize (isMobile (ctl s))) eqn:E'; [|exfalso; apply Hn; split; [exact E | lia]].
      match goal with
      | |- context [showStatus ?m _ _] =>
          destruct (showStatus_error m s) as (H1 & H2 & _ & H4 & _)
      end.
      split; [exact H1|]. split; [exact H2 | exact H4].
    - match goal with
      | |- context [showStatus ?m _ _] =>
          destruct (showStatus_error m s) as (H1 & H2 & _ & H4 & _)
      end.
      split; [exact H1|]. split; [exact H2 | exact H4]. }
  assert (Hyes : Js.occurs_in "image" (type_string f)
                 /\ file_size f <= maxSize (isMobile (ctl s)) ->
                 currentImageFile (ctl (handleImageFile (Some f) s)) = Some f
                 /\ jobs (handleImageFile (Some f) s) = (jobs s ++ [FileReaderJob f false])%list
                 /\ view (handleImageFile (Some f) s) = view s).
  { intros (Ht & Hs). destruct (handleImageFile_accepts f s Ht Hs) as (H1 & H2 & H3 & _).
    split; [exact H1|]. split; [exact H2 | exact H3]. }
  assert (Hdec : forall t, Js.occurs_in "image" t \/ ~ Js.occurs_in "image" t).
  { intros t. destruct (Js.re_search image_pattern t) eqn:E.
    - left. apply image_pattern_occurs, E.
    - right. intros H. apply image_pattern_occurs in H. congruence. }
  split; [split|].
  - intros H. apply Hyes, H.
  - intros Hj. destruct (Hdec (type_string f)) as [Ht|Ht].
    + split; [exact Ht|].
      destruct (Z_le_gt_dec (file_size f) (maxSize (isMobile (ctl s)))) as [Hle|Hgt];
        [exact Hle|].
      destruct Hno as (_ & Hj' & _); [intros (_ & H); lia|].
      rewrite Hj' in Hj. apply (f_equal (@length Job)) in Hj.
      rewrite length_app in Hj. cbn in Hj. lia.
    + destruct Hno as (_ & Hj' & _); [intros (H & _); exact (Ht H)|].
      rewrite Hj' in Hj. apply (f_equal (@length Job)) in Hj.
      rewrite length_app in Hj. cbn in Hj. lia.
  - split; [intros H; destruct (Hyes H) as (H1 & _ & H3); split; assumption|].
    split; [exact Hno|]. split.
    + intros Heq Ht. apply Hyes. split; [exact Ht | lia].
    + intros Hty. apply Hno. intros (Ht & _).
      apply image_pattern_occurs in Ht. unfold type_string in Ht. rewrite Hty in Ht.
      discriminate Ht.
Qed.

(** X4: when the read of an accepted file ends well, the original is shown
    and the enhance button enabled, and whatever enhanced result there was is
    discarded: its object URL is revoked and forgotten, its preview and its
    stats are hidden and the download button is disabled; the file's own
    object URL is made and its decode started. *)
Theorem load_shows_original (s : State) (i : nat) (f : File) (d : string) :
  jobs s !! i = Some (FileReaderJob f true) ->
  Js.re_search image_pattern (type_string f) = true ->
  let s' := step s (Completed i (Load d)) in
  originalImage (ctl s') = Some d
  /\ originalPreview (view s')
     = {| img := Some {| img_src := SrcData d; img_shown := true |};
          placeholder_shown := false |}
  /\ enhanceBtn_disabled (view s') = false
  /\ downloadBtn_disabled (view s') = true
  /\ enhancedImageUrl (ctl s') = None
  /\ (forall u, enhancedImageUrl (ctl s) = Some u -> blobs s' !! u = None)
  /\ placeholder_shown (enhancedPreview (view s')) = true
  /\ (forall im, img (enhancedPreview (view s')) = Some im -> img_shown im = false)
  /\ stats_shown (enhancedStats (view s')) = false
  /\ fileInfo (view s') = Some f
  /\ statusClass (view s') = "status success"
  /\ currentImageFile (ctl s') = currentImageFile (ctl s)
  /\ In (StatsImageJob Original f (nextUrl s)) (jobs s')
  /\ nextUrl s' = S (nextUrl s).
Proof.
  intros Hj Ht. destruct (accepted_type_has_subtype f Ht) as (sub & Hsub). cbv zeta.
  set (s0 := set_jobs (delete i (jobs s)) s).
  assert (Hs' : step s (Completed i (Load d)) = reader_onload f d s0).
  { change (step s (Completed i (Load d))) with (complete i (Load d) s).
    unfold complete. rewrite Hj. reflexivity. }
  rewrite Hs'. unfold reader_onload. cbv zeta. rewrite Hsub.
  unfold resetEnhancedPreview, updateImageStats. cbn.
  destruct (enhancedImageUrl (ctl s)) as [u0|] eqn:E; cbn; rewrite ?E.
  - split; [reflexivity|]. split; [reflexivity|]. split; [reflexivity|].
    split; [reflexivity|]. split; [reflexivity|].
    split; [intros u Hu; injection Hu as <-; apply lookup_delete_eq|].
    split; [reflexivity|].
    split; [intros im; destruct (img (enhancedPreview (view s))); cbn; intros H;
            [injection H as <-; reflexivity | discriminate H]|].
    split; [reflexivity|]. split; [reflexivity|]. split; [reflexivity|].
    split; [reflexivity|]. split; [|reflexivity].
    apply in_or_app. left. apply in_or_app. right. left. reflexivity.
  - split; [reflexivity|]. split; [reflexivity|]. split; [reflexivity|].
    split; [reflexivity|]. split; [reflexivity|].
    split; [intros u Hu; discriminate Hu|].
    split; [reflexivity|].
    split; [intros im; destruct (img (enhancedPreview (view s))); cbn; intros H;
            [injection H as <-; reflexivity | discriminate H]|].
    split; [reflexivity|]. split; [reflexivity|]. split; [reflexivity|].
    split; [reflexivity|]. split; [|reflexivity].
    apply in_or_app. left. apply in_or_app. right. left. reflexivity.
Qed.

(** A second photo is loaded after the first was enhanced. *)
Lemma load_shows_original_witness :
  let s := run (initial false) (enhance_photo ++ [FilesDropped [big_photo]; Completed 6 LoadStart])%list in
  jobs s !! 6%nat = Some (FileReaderJob big_photo true)
  /\ Js.re_search image_pattern (type_string big_photo) = true
  /\ enhancedImageUrl (ctl s) = Some 1%nat
  /\ downloadBtn_disabled (view (step s (Completed 6 (Load "data:image/png;base64,BBBB")))) = true
  /\ blobs (step s (Completed 6 (Load "data:image/png;base64,BBBB"))) !! 1%nat = None.
Proof.
  cbv zeta.
  set (s := run (initial false)
              (enhance_photo ++ [FilesDropped [big_photo]; Completed 6 LoadStart])%list).
  assert (Hj : jobs s !! 6%nat = Some (FileReaderJob big_photo true))
    by (vm_compute; reflexivity).
  assert (Ht : Js.re_search image_pattern (type_string big_photo) = true)
    by (vm_compute; reflexivity).
  assert (Hu : enhancedImageUrl (ctl s) = Some 1%nat) by (vm_compute; reflexivity).
  pose proof (load_shows_original s 6%nat big_photo "data:image/png;base64,BBBB" Hj Ht) as G.
  cbv zeta in G. destruct G as (_ & _ & _ & G4 & _ & G6 & _).
  split; [exact Hj|]. split; [exact Ht|]. split; [exact Hu|].
  split; [exact G4 | exact (G6 1%nat Hu)].
Defined.

(** X5: a read that ends after a reset enables the enhance button although
    no file is selected any more; the click on the button then only shows
    [Please select an image first]: nothing is asked and nothing is sent. *)
Theorem load_after_reset_enables_enhance (s : State) (i : nat) (f : File) (d : string) :
  jobs s !! i = Some (FileReaderJob f true) ->
  currentImageFile (ctl s) = None ->
  let s' := step s (Completed i (Load d)) in
  enhanceBtn_disabled (view s') = false
  /\ currentImageFile (ctl s') = None
  /\ originalImage (ctl s') = Some d
  /\ forall answer,
       effects (step s' (EnhanceClicked answer)) = effects s'
       /\ jobs (step s' (EnhanceClicked answer)) = jobs s'
       /\ statusText (view (step s' (EnhanceClicked answer))) = "Please select an image first"
       /\ statusClass (view (step s' (EnhanceClicked answer))) = "status error".
Proof.
  intros Hj Hf. cbv zeta.
  set (s0 := set_jobs (delete i (jobs s)) s).
  assert (Hs' : step s (Completed i (Load d)) = reader_onload f d s0).
  { change (step s (Completed i (Load d))) with (complete i (Load d) s).
    unfold complete. rewrite Hj. reflexivity. }
  rewrite Hs'.
  assert (H : enhanceBtn_disabled (view (reader_onload f d s0)) = false
              /\ currentImageFile (ctl (reader_onload f d s0)) = currentImageFile (ctl s)
              /\ originalImage (ctl (reader_onload f d s0)) = Some d).
  { unfold reader_onload. cbv zeta.
    destruct (Js.split_second "/" (type_string f)); unfold resetEnhancedPreview, updateImageStats;
      cbn; destruct (enhancedImageUrl (ctl s)); repeat split; reflexivity. }
  destruct H as (H1 & H2 & H3). rewrite Hf in H2.
  split; [exact H1|]. split; [exact H2|]. split; [exact H3|].
  intros answer. set (s' := reader_onload f d s0) in *.
  change (step s' (EnhanceClicked answer))
    with (if enhanceBtn_disabled (view s') then s' else enhanceImage answer s').
  rewrite H1. unfold enhanceImage. rewrite H2.
  destruct (showStatus_error "Please select an image first" s')
    as ((_ & _ & _ & _ & He & _) & Hjobs & Htext & Hclass & _).
  split; [exact He|]. split; [exact Hjobs|]. split; [exact Htext | exact Hclass].
Qed.

(** Reset while [photo] is being read. *)
Lemma load_after_reset_enables_enhance_witness :
  let s := run (initial false) [FilesPicked [photo]; Completed 1 LoadStart; ResetClicked] in
  jobs s !! 1%nat = Some (FileReaderJob photo true)
  /\ currentImageFile (ctl s) = None
  /\ enhanceBtn_disabled (view s) = true
  /\ enhanceBtn_disabled (view (step s (Completed 1 (Load "data:image/jpeg;base64,AAAA")))) = false.
Proof.
  cbv zeta.
  set (s := run (initial false) [FilesPicked [photo]; Completed 1 LoadStart; ResetClicked]).
  assert (Hj : jobs s !! 1%nat = Some (FileReaderJob photo true)) by (vm_compute; reflexivity).
  assert (Hf : currentImageFile (ctl s) = None) by (vm_compute; reflexivity).
  destruct (load_after_reset_enables_enhance s 1%nat photo "data:image/jpeg;base64,AAAA" Hj Hf)
    as (G & _).
  split; [exact Hj|]. split; [exact Hf|]. split; [vm_compute; reflexivity | exact G].
Defined.

(** A PNG of exactly the desktop ceiling is taken on. *)
Lemma file_taken_iff_witness :
  let f := {| file_name := "edge.png"; file_type := Mime "image" "png";
              file_size := 10 * 1024 * 1024 |} in
  file_size f = maxSize (isMobile (ctl (initial false)))
  /\ Js.occurs_in "image" (type_string f)
  /\ currentImageFile (ctl (handleImageFile (Some f) (initial false))) = Some f.
Proof.
  cbv zeta.
  set (f := {| file_name := "edge.png"; file_type := Mime "image" "png";
               file_size := 10 * 1024 * 1024 |}).
  assert (Hs : file_size f = maxSize (isMobile (ctl (initial false)))) by reflexivity.
  assert (Ht : Js.occurs_in "image" (type_string f)) by (exists "", "/png"; reflexivity).
  pose proof (file_taken_iff f (initial false)) as G. cbv zeta in G.
  destruct G as (_ & _ & _ & G & _).
  split; [exact Hs|]. split; [exact Ht | exact (G Hs Ht)].
Defined.

(** ** Object URLs of files *)

Lemma fp_url_is_result_step p q :
  fp_step p q -> fp_fresh p -> fp_url_is_result p -> fp_url_is_result q.
Proof.
  intros [q' [|f|]|f|b0] Hf Hp u Hu; cbn in *; try discriminate.
  - exact (Hp u Hu).
  - exact (Hp u Hu).
  - injection Hu as <-. split; [lia|]. exists b0. apply lookup_insert_eq.
Qed.

Lemma reachable_url_is_result s : reachable s -> fp_url_is_result (footprint s).
Proof.
  intros Hs.
  enough (H : fp_fresh (footprint s) /\ fp_url_is_result (footprint s)) by apply H.
  apply (reachable_invariant (fun p => fp_fresh p /\ fp_url_is_result p)); [| |exact Hs].
  - split.
    + intros u H. cbn in H. rewrite lookup_empty in H. destruct H as [x H]. discriminate H.
    + intros u H. discriminate H.
  - intros p q Hpq (H1 & H2). split.
    + exact (fp_fresh_step p q Hpq H1).
    + exact (fp_url_is_result_step p q Hpq H1 H2).
Qed.

(** X6: the object URL that [updateImageStats] makes of a file is never
    revoked: once it is live, it is live, and refers to that file, after
    every further event. *)
Theorem file_url_never_revoked (s : State) (e : Event) (u : nat) (f : File) :
  reachable s ->
  blobs s !! u = Some (BlobOfFile f) ->
  blobs (step s e) !! u = Some (BlobOfFile f).
Proof.
  intros Hs Hu.
  pose proof (reachable_fresh s Hs) as Hfresh.
  pose proof (reachable_url_is_result s Hs) as Hres.
  assert (Hlt : (u < nextUrl s)%nat) by (apply (Hfresh u); cbn; rewrite Hu; eauto).
  assert (Hne : forall u0, enhancedImageUrl (ctl s) = Some u0 -> u0 <> u).
  { intros u0 H0 ->. destruct (Hres u H0) as (_ & b & Hb). cbn in Hb. congruence. }
  assert (Hrev : fp_revoke (footprint s) !! u = Some (BlobOfFile f)).
  { unfold fp_revoke. cbn. destruct (enhancedImageUrl (ctl s)) as [u0|] eqn:E; [|exact Hu].
    rewrite lookup_delete_ne by (apply Hne; reflexivity). exact Hu. }
  change (fp_blobs (footprint (step s e)) !! u = Some (BlobOfFile f)).
  pose proof (step_abstracts s e) as H.
  remember (footprint (step s e)) as q eqn:Hq. clear Hq.
  destruct H as [q [|f0|]|f0|b0]; cbn.
  - exact Hu.
  - exact Hu.
  - exact Hrev.
  - destruct (enhancedImageUrl (ctl s)) as [u0|] eqn:E.
    + rewrite lookup_delete_ne by (apply Hne; reflexivity).
      rewrite lookup_insert_ne by lia. exact Hu.
    + rewrite lookup_insert_ne by lia. exact Hu.
  - rewrite lookup_insert_ne by lia. exact Hrev.
Qed.

(** The URL of [photo] outlives a reset. *)
Lemma file_url_never_revoked_witness :
  let s := run (initial false) enhance_photo in
  reachable s
  /\ blobs s !! 0%nat = Some (BlobOfFile photo)
  /\ blobs (step s ResetClicked) !! 0%nat = Some (BlobOfFile photo).
Proof.
  cbv zeta. set (s := run (initial false) enhance_photo).
  assert (Hs : reachable s).
  { exists false, default_inputs, index_page, enhance_photo. reflexivity. }
  assert (Hu : blobs s !! 0%nat = Some (BlobOfFile photo)) by (vm_compute; reflexivity).
  split; [exact Hs|]. split; [exact Hu|].
  exact (file_url_never_revoked s ResetClicked 0%nat photo Hs Hu).
Defined.

(** ** The end of an enhance request *)

Lemma complete_enhance_responded (s : State) (i : nat) (v : Js.num) (r : Response) :
  jobs s !! i = Some (EnhanceFetchJob v) ->
  step s (Completed i (Responded r))
  = enhance_resume v (inl r) (set_jobs (delete i (jobs s)) s).
Proof.
  intros Hj. change (step s (Completed i (Responded r))) with (complete i (Responded r) s).
  unfold complete. rewrite Hj. reflexivity.
Qed.

Lemma complete_enhance_rejected (s : State) (i : nat) (v : Js.num) (m : string) :
  jobs s !! i = Some (EnhanceFetchJob v) ->
  step s (Completed i (Rejected m))
  = enhance_resume v (inr m) (set_jobs (delete i (jobs s)) s).
Proof.
  intros Hj. change (step s (Completed i (Rejected m))) with (complete i (Rejected m) s).
  unfold complete. rewrite Hj. reflexivity.
Qed.

Lemma enhance_resume_releases (v : Js.num) (result : Response + string) (s : State) :
  let s' := enhance_resume v result s in
  loadingModal (view s') = false
  /\ (isMobile (ctl s) = true ->
      exists heading, mobileProcessingIndicator (view s') = Some (false, heading))
  /\ exists more, jobs s' = (jobs s ++ more)%list.
Proof.
  cbv zeta. unfold enhance_resume.
  assert (G : forall s0, isMobile (ctl s0) = isMobile (ctl s) ->
            (exists more, jobs s0 = (jobs s ++ more)%list) ->
            loadingModal (view (enhance_finally s0)) = false
            /\ (isMobile (ctl s) = true ->
                exists heading,
                  mobileProcessingIndicator (view (enhance_finally s0)) = Some (false, heading))
            /\ exists more, jobs (enhance_finally s0) = (jobs s ++ more)%list).
  { intros s0 Hm Hjobs. unfold enhance_finally. cbn. rewrite Hm.
    destruct (isMobile (ctl s)); cbn.
    - split; [reflexivity|]. split; [|exact Hjobs].
      intros _. unfold showMobileProcessing. cbn. eauto.
    - split; [reflexivity|]. split; [discriminate | exact Hjobs]. }
  destruct result as [r|m]; [destruct (negb (ok r))|].
  - apply G; [reflexivity | exists []; symmetry; apply app_nil_r].
  - apply G.
    + unfold enhance_success, release_enhanced. cbn.
      destruct (enhancedImageUrl (ctl s)); reflexivity.
    + unfold enhance_success, release_enhanced. cbn.
      destruct (enhancedImageUrl (ctl s)); cbn; rewrite <- app_assoc; eauto.
  - apply G; [reflexivity | exists []; symmetry; apply app_nil_r].
Qed.

(** X7: however an enhance request ends, with a usable response, with an
    error status or with no response at all, the loading modal is hidden
    and, on mobile, so is the processing indicator, and the request is
    pending no more. *)
Theorem loading_always_released (s : State) (i : nat) (v : Js.num) (o : Outcome) :
  jobs s !! i = Some (EnhanceFetchJob v) ->
  (exists r, o = Responded r) \/ (exists m, o = Rejected m) ->
  let s' := step s (Completed i o) in
  loadingModal (view s') = false
  /\ (isMobile (ctl s) = true ->
      exists heading, mobileProcessingIndicator (view s') = Some (false, heading))
  /\ exists more, jobs s' = (delete i (jobs s) ++ more)%list.
Proof.
  intros Hj [(r & ->) | (m & ->)]; cbv zeta.
  - rewrite (complete_enhance_responded s i v r Hj).
    exact (enhance_resume_releases v (inl r) (set_jobs (delete i (jobs s)) s)).
  - rewrite (complete_enhance_rejected s i v m Hj).
    exact (enhance_resume_releases v (inr m) (set_jobs (delete i (jobs s)) s)).
Qed.

(** On mobile the request fails for want of a network. *)
Lemma loading_always_released_witness :
  let s := run (initial true) (load_photo_mobile ++ [EnhanceClicked true])%list in
  jobs s !! 5%nat = Some (EnhanceFetchJob (Some 1))
  /\ loadingModal (view s) = true
  /\ loadingModal (view (step s (Completed 5 (Rejected "Failed to fetch")))) = false.
Proof.
  cbv zeta. set (s := run (initial true) (load_photo_mobile ++ [EnhanceClicked true])%list).
  assert (Hj : jobs s !! 5%nat = Some (EnhanceFetchJob (Some 1))) by (vm_compute; reflexivity).
  destruct (loading_always_released s 5%nat (Some 1) (Rejected "Failed to fetch") Hj
              (or_intror (ex_intro _ "Failed to fetch" eq_refl))) as (G & _).
  split; [exact Hj|]. split; [vm_compute; reflexivity | exact G].
Defined.

(** X8: when the request ends with no response, be it that the backend is
    not reached, the error modal shows [Enhancement failed:] and the message
    of the error; nothing else of the result changes: no object URL is made
    or revoked, the controller's fields and the download button stay as
    they were. *)
Theorem network_failure_surfaced (s : State) (i : nat) (v : Js.num) (m : string) :
  jobs s !! i = Some (EnhanceFetchJob v) ->
  let s' := step s (Completed i (Rejected m)) in
  errorMessage (view s') = "Enhancement failed: " ++ m
  /\ errorModal (view s') = true
  /\ ctl s' = ctl s /\ blobs s' = blobs s /\ nextUrl s' = nextUrl s
  /\ effects s' = effects s
  /\ downloadBtn_disabled (view s') = downloadBtn_disabled (view s)
  /\ enhancedPreview (view s') = enhancedPreview (view s)
  /\ jobs s' = delete i (jobs s).
Proof.
  intros Hj. cbv zeta. rewrite (complete_enhance_rejected s i v m Hj).
  unfold enhance_resume, enhance_finally. cbn.
  destruct (isMobile (ctl s)); repeat split; reflexivity.
Qed.

Lemma network_failure_surfaced_witness :
  let s := run (initial false) (load_photo ++ [EnhanceClicked true])%list in
  jobs s !! 4%nat = Some (EnhanceFetchJob (Some 1))
  /\ errorMessage (view (step s (Completed 4 (Rejected "Failed to fetch"))))
     = "Enhancement failed: Failed to fetch".
Proof.
  cbv zeta. set (s := run (initial false) (load_photo ++ [EnhanceClicked true])%list).
  assert (Hj : jobs s !! 4%nat = Some (EnhanceFetchJob (Some 1))) by (vm_compute; reflexivity).
  destruct (network_failure_surfaced s 4%nat (Some 1) "Failed to fetch" Hj) as (G & _).
  split; [exact Hj | exact G].
Defined.

(** X9: when the response is usable, its body becomes the enhanced result
    under an object URL that was not live before; the URL held until then,
    if any, is revoked; the enhanced preview shows the new one, the download
    button is enabled, a success message is shown and the decode for the
    enhanced stats is started with the factor the request was made with. *)
Theorem response_becomes_result (s : State) (i : nat) (v : Js.num) (r : Response) :
  reachable s ->
  jobs s !! i = Some (EnhanceFetchJob v) ->
  ok r = true ->
  let s' := step s (Completed i (Responded r)) in
  let u := nextUrl s in
  blobs s !! u = None
  /\ enhancedImageUrl (ctl s') = Some u
  /\ blobs s' !! u = Some (BlobOfResponse (body r))
  /\ (forall u0, enhancedImageUrl (ctl s) = Some u0 -> blobs s' !! u0 = None)
  /\ enhancedPreview (view s')
     = {| img := Some {| img_src := SrcObject u; img_shown := true |};
          placeholder_shown := false |}
  /\ downloadBtn_disabled (view s') = false
  /\ statusText (view s') = success_message v
  /\ statusClass (view s') = "status success"
  /\ In (EnhancedStatsImageJob v (originalImage (ctl s))) (jobs s')
  /\ errorModal (view s') = errorModal (view s)
  /\ currentImageFile (ctl s') = currentImageFile (ctl s).
Proof.
  intros Hs Hj Hok. cbv zeta.
  assert (Hfree : blobs s !! nextUrl s = None).
  { destruct (blobs s !! nextUrl s) eqn:E; [|reflexivity].
    pose proof (reachable_fresh s Hs (nextUrl s)) as H. cbn in H.
    rewrite E in H. specialize (H (ex_intro _ _ eq_refl)). lia. }
  assert (Hold : forall u0, enhancedImageUrl (ctl s) = Some u0 -> u0 <> nextUrl s).
  { intros u0 H0 ->. destruct (reachable_url_is_result s Hs _ H0) as (H & _). cbn in H. lia. }
  rewrite (complete_enhance_responded s i v r Hj).
  unfold enhance_resume. rewrite Hok. cbn [negb].
  unfold enhance_finally, enhance_success, release_enhanced. cbn.
  destruct (enhancedImageUrl (ctl s)) as [u0|] eqn:E; cbn;
    destruct (isMobile (ctl s)); cbn.
  all: split; [exact Hfree|].
  all: split; [reflexivity|].
  all: split; [apply lookup_insert_eq|].
  all: split; [intros u1 H1; try discriminate H1|].
  all: try (injection H1 as <-; rewrite lookup_insert_ne by (intros H; symmetry in H; revert H; apply Hold; reflexivity); apply lookup_delete_eq).
  all: split; [reflexivity|]. 
  all: split; [reflexivity|]. 
  all: split; [reflexivity|]. 
  all: split; [reflexivity|]. 
  all: split; [|split; reflexivity].
  all: apply in_or_app; left; apply in_or_app; right; left; reflexivity.
Qed.

(** The second enhancement of [photo] replaces the first. *)
Lemma response_becomes_result_witness :
  let s := run (initial false) (enhance_photo ++ [EnhanceClicked true])%list in
  reachable s
  /\ jobs s !! 6%nat = Some (EnhanceFetchJob (Some 1))
  /\ ok png_ok = true
  /\ enhancedImageUrl (ctl s) = Some 1%nat
  /\ enhancedImageUrl (ctl (step s (Completed 6 (Responded png_ok)))) = Some 2%nat
  /\ blobs (step s (Completed 6 (Responded png_ok))) !! 1%nat = None.
Proof.
  cbv zeta. set (es := (enhance_photo ++ [EnhanceClicked true])%list).
  set (s := run (initial false) es).
  assert (Hs : reachable s).
  { exists false, default_inputs, index_page, es. reflexivity. }
  assert (Hj : jobs s !! 6%nat = Some (EnhanceFetchJob (Some 1))) by (vm_compute; reflexivity).
  assert (Hok : ok png_ok = true) by reflexivity.
  assert (Hu : enhancedImageUrl (ctl s) = Some 1%nat) by (vm_compute; reflexivity).
  pose proof (response_becomes_result s 6%nat (Some 1) png_ok Hs Hj Hok) as G.
  cbv zeta in G. destruct G as (_ & G2 & _ & G4 & _).
  split; [exact Hs|]. split; [exact Hj|]. split; [exact Hok|]. split; [exact Hu|].
  split; [rewrite G2; vm_compute; reflexivity | exact (G4 1%nat Hu)].
Defined.

(** ** Cancel, reset, timers and the health probe *)


Lemma face_enhance_success_eq v b s :
  face (enhance_success v b s)
  = {| fc_enhance_disabled := fc_enhance_disabled (face s);
       fc_download_disabled := false;
       fc_url := Some (nextUrl s);
       fc_file := fc_file (face s);
       fc_sliders := fc_sliders (face s);
       fc_labels := fc_labels (face s) |}.
Proof.
  unfold enhance_success, release_enhanced, face. cbn.
  destruct (enhancedImageUrl (ctl s)); reflexivity.
Qed.

(** The end of an enhance request acts on the footprint and the face of the
    state it finds, and on nothing else. *)
Lemma enhance_resume_eq v res s1 s2 :
  footprint s1 = footprint s2 -> face s1 = face s2 ->
  footprint (enhance_resume v res s1) = footprint (enhance_resume v res s2)
  /\ face (enhance_resume v res s1) = face (enhance_resume v res s2).
Proof.
  intros Hfp Hfc. unfold enhance_resume.
  destruct res as [r|m]; [destruct (negb (ok r))|].
  - autorewrite with fp face. split; assumption.
  - rewrite (footprint_enhance_finally (enhance_success v (body r) s1)),
      (footprint_enhance_finally (enhance_success v (body r) s2)),
      (face_enhance_finally (enhance_success v (body r) s1)),
      (face_enhance_finally (enhance_success v (body r) s2)),
      (footprint_enhance_success v (body r) s1), (footprint_enhance_success v (body r) s2),
      (face_enhance_success_eq v (body r) s1), (face_enhance_success_eq v (body r) s2).
    change (nextUrl s1) with (fp_next (footprint s1)).
    change (nextUrl s2) with (fp_next (footprint s2)).
    change (currentImageFile (ctl s1)) with (fp_file (footprint s1)).
    change (currentImageFile (ctl s2)) with (fp_file (footprint s2)).
    rewrite Hfp, Hfc. split; reflexivity.
  - autorewrite with fp face. split; assumption.
Qed.

(** X10: the cancel button aborts nothing.  It hides the loading modal and
    says [Enhancement cancelled]; the request stays pending, and when its
    response comes it is applied as if cancel had not been clicked: the
    result is stored under the same object URL and the download button is
    enabled. *)
Theorem cancel_does_not_abort (s : State) (i : nat) (v : Js.num) :
  loadingModal (view s) = true ->
  jobs s !! i = Some (EnhanceFetchJob v) ->
  let s1 := step s CancelClicked in
  jobs s1 = jobs s /\ effects s1 = effects s /\ ctl s1 = ctl s /\ blobs s1 = blobs s
  /\ loadingModal (view s1) = false
  /\ statusText (view s1) = "Enhancement cancelled"
  /\ forall o,
       footprint (step s1 (Completed i o)) = footprint (step s (Completed i o))
       /\ face (step s1 (Completed i o)) = face (step s (Completed i o))
       /\ (forall r, o = Responded r -> ok r = true ->
           enhancedImageUrl (ctl (step s1 (Completed i o))) = Some (nextUrl s)
           /\ downloadBtn_disabled (view (step s1 (Completed i o))) = false).
Proof.
  intros Hm Hj. cbv zeta.
  change (step s CancelClicked)
    with (if loadingModal (view s)
          then showStatus "Enhancement cancelled" "info" (hideModal LoadingModal s)
          else s).
  rewrite Hm.
  set (s1 := showStatus "Enhancement cancelled" "info" (hideModal LoadingModal s)).
  assert (Hjobs : jobs s1 = jobs s) by reflexivity.
  assert (Hfp : forall j, footprint (set_jobs j s1) = footprint (set_jobs j s)).
  { intros j. unfold s1. autorewrite with fp. reflexivity. }
  assert (Hfc : forall j, face (set_jobs j s1) = face (set_jobs j s)).
  { intros j. unfold s1. autorewrite with face. reflexivity. }
  split; [exact Hjobs|]. split; [reflexivity|]. split; [reflexivity|]. split; [reflexivity|].
  split; [reflexivity|]. split; [reflexivity|].
  intros o.
  change (step s1 (Completed i o)) with (complete i o s1).
  change (step s (Completed i o)) with (complete i o s).
  unfold complete. rewrite Hjobs, Hj.
  pose proof (Hfp []) as Hfp0. pose proof (Hfc []) as Hfc0.
  rewrite footprint_set_jobs in Hfp0. rewrite (footprint_set_jobs [] s) in Hfp0.
  rewrite face_set_jobs in Hfc0. rewrite (face_set_jobs [] s) in Hfc0.
  destruct o as [ | result | | | w h | | r | m | ]; cbn [resume];
    try (split; [exact Hfp0|]; split; [exact Hfc0|]; intros r0 Hr; discriminate Hr).
  - destruct (enhance_resume_eq v (inl r) _ _ (Hfp (delete i (jobs s)))
                (Hfc (delete i (jobs s)))) as (G1 & G2).
    split; [exact G1|]. split; [exact G2|].
    intros r0 Hr Hok. injection Hr as <-.
    split.
    + transitivity (fp_url (footprint (enhance_resume v (inl r)
                                         (set_jobs (delete i (jobs s)) s))));
        [exact (f_equal fp_url G1)|].
      unfold enhance_resume. rewrite Hok. cbn [negb].
      rewrite footprint_enhance_finally, footprint_enhance_success. reflexivity.
    + transitivity (fc_download_disabled (face (enhance_resume v (inl r)
                                                  (set_jobs (delete i (jobs s)) s))));
        [exact (f_equal fc_download_disabled G2)|].
      unfold enhance_resume. rewrite Hok. cbn [negb].
      rewrite face_enhance_finally, face_enhance_success_eq. reflexivity.
  - destruct (enhance_resume_eq v (inr m) _ _ (Hfp (delete i (jobs s)))
                (Hfc (delete i (jobs s)))) as (G1 & G2).
    split; [exact G1|]. split; [exact G2|]. intros r0 Hr. discriminate Hr.
Qed.

Lemma cancel_does_not_abort_witness :
  let s := run (initial false) (load_photo ++ [EnhanceClicked true])%list in
  loadingModal (view s) = true
  /\ jobs s !! 4%nat = Some (EnhanceFetchJob (Some 1))
  /\ jobs (step s CancelClicked) = jobs s
  /\ enhancedImageUrl (ctl (step (step s CancelClicked) (Completed 4 (Responded png_ok))))
     = Some 1%nat.
Proof.
  cbv zeta. set (s := run (initial false) (load_photo ++ [EnhanceClicked true])%list).
  assert (Hm : loadingModal (view s) = true) by (vm_compute; reflexivity).
  assert (Hj : jobs s !! 4%nat = Some (EnhanceFetchJob (Some 1))) by (vm_compute; reflexivity).
  pose proof (cancel_does_not_abort s 4%nat (Some 1) Hm Hj) as G. cbv zeta in G.
  destruct G as (G1 & _ & _ & _ & _ & _ & G).
  destruct (G (Responded png_ok)) as (_ & _ & G').
  destruct (G' png_ok eq_refl eq_refl) as (G2 & _).
  split; [exact Hm|]. split; [exact Hj|]. split; [exact G1|].
  rewrite G2. vm_compute. reflexivity.
Defined.


Lemma ctl_resetAll (s : State) :
  ctl (resetAll s)
  = {| originalImage := None; enhancedImage := None; currentImageFile := None;
       enhancedImageUrl := None; isMobile := isMobile (ctl s) |}.
Proof.
  unfold resetAll. cbn. destruct (enhancedImageUrl (ctl s)) eqn:E; cbn;
    unfold set_currentImageFile, set_enhancedImage, set_originalImage; cbn;
    rewrite ?E; reflexivity.
Qed.

Lemma inputs_resetAll (s : State) : inputs (resetAll s) = default_inputs.
Proof. unfold resetAll. destruct (enhancedImageUrl _); reflexivity. Qed.

Lemma blobs_resetAll (s : State) :
  blobs (resetAll s)
  = match enhancedImageUrl (ctl s) with
    | Some u => delete u (blobs s)
    | None => blobs s
    end.
Proof. unfold resetAll. cbn. destruct (enhancedImageUrl (ctl s)); reflexivity. Qed.

Lemma jobs_resetAll (s : State) :
  jobs (resetAll s) = (jobs s ++ [HideStatusTimer])%list
  /\ effects (resetAll s) = effects s /\ nextUrl (resetAll s) = nextUrl s.
Proof.
  unfold resetAll. cbn. destruct (enhancedImageUrl (ctl s)); repeat split; reflexivity.
Qed.

Lemma view_resetAll (s : State) :
  let hidden p :=
    {| img := match img p with
              | Some _ => Some {| img_src := SrcEmpty; img_shown := false |}
              | None => None
              end;
       placeholder_shown := true |} in
  let v := view s in
  view (resetAll s)
  = {| enhanceBtn_disabled := true;
       downloadBtn_disabled := true;
       statusText := "Reset complete. Upload a new image to start.";
       statusClass := "status success";
       statusShown := true;
       loadingModal := loadingModal v;
       loadingMessage := loadingMessage v;
       errorModal := errorModal v;
       errorMessage := errorMessage v;
       originalPreview := hidden (originalPreview v);
       enhancedPreview := hidden (enhancedPreview v);
       originalStats := {| stats_content := stats_content (originalStats v);
                           stats_shown := false |};
       enhancedStats := {| stats_content := stats_content (enhancedStats v);
                           stats_shown := false |};
       fileInfo := None;
       sharpnessValue := "2x";
       contrastValue := "1.2x";
       brightnessValue := "1.1x";
       colorValue := "1.1x";
       mobileProcessingIndicator := mobileProcessingIndicator v;
       backendStatus := backendStatus v;
       option8x_disabled := option8x_disabled v |}.
Proof.
  cbv zeta. unfold resetAll. cbn. destruct (enhancedImageUrl (ctl s)); reflexivity.
Qed.

(** X11: a reset cancels nothing that is in flight: every pending read,
    decode and request is still pending after it, and nothing is sent.  A
    second reset right after the first changes nothing but the pending timer
    of one more success message. *)
Theorem reset_keeps_jobs (s : State) :
  let s1 := step s ResetClicked in
  let s2 := step s1 ResetClicked in
  jobs s1 = (jobs s ++ [HideStatusTimer])%list
  /\ effects s1 = effects s
  /\ nextUrl s1 = nextUrl s
  /\ ctl s2 = ctl s1 /\ inputs s2 = inputs s1 /\ view s2 = view s1
  /\ blobs s2 = blobs s1 /\ effects s2 = effects s1
  /\ jobs s2 = (jobs s1 ++ [HideStatusTimer])%list.
Proof.
  cbv zeta. change (step s ResetClicked) with (resetAll s).
  change (step (resetAll s) ResetClicked) with (resetAll (resetAll s)).
  destruct (jobs_resetAll s) as (J1 & J2 & J3).
  destruct (jobs_resetAll (resetAll s)) as (K1 & K2 & K3).
  split; [exact J1|]. split; [exact J2|]. split; [exact J3|].
  split; [rewrite (ctl_resetAll (resetAll s)), (ctl_resetAll s); reflexivity|].
  split; [rewrite (inputs_resetAll (resetAll s)), (inputs_resetAll s); reflexivity|].
  split.
  { pose proof (view_resetAll (resetAll s)) as H2. pose proof (view_resetAll s) as H1.
    cbv zeta in H1, H2. rewrite H1 in H2. rewrite H2, H1. cbn.
    destruct (img (originalPreview (view s))), (img (enhancedPreview (view s)));
      reflexivity. }
  split; [rewrite (blobs_resetAll (resetAll s)), (ctl_resetAll s); reflexivity|].
  split; [exact K2 | exact K1].
Qed.

(** X12: the timer that a success message starts hides the status line
    when it fires, whatever the line shows by then: an error shown within
    five seconds of a success message disappears with it. *)
Theorem success_timer_hides_later_error (s : State) (success error : string) :
  let s1 := showStatus error "error" (showStatus success "success" s) in
  let i := length (jobs s) in
  jobs s1 !! i = Some HideStatusTimer
  /\ statusText (view s1) = error /\ statusShown (view s1) = true
  /\ statusText (view (step s1 (Completed i Elapsed))) = error
  /\ statusClass (view (step s1 (Completed i Elapsed))) = "status error"
  /\ statusShown (view (step s1 (Completed i Elapsed))) = false.
Proof.
  cbv zeta.
  set (s1 := showStatus error "error" (showStatus success "success" s)).
  assert (Hjobs : jobs s1 = (jobs s ++ [HideStatusTimer])%list) by reflexivity.
  assert (Hj : jobs s1 !! length (jobs s) = Some HideStatusTimer).
  { rewrite Hjobs. rewrite lookup_app_r by lia. now rewrite Nat.sub_diag. }
  split; [exact Hj|]. split; [reflexivity|]. split; [reflexivity|].
  change (step s1 (Completed (length (jobs s)) Elapsed))
    with (complete (length (jobs s)) Elapsed s1).
  unfold complete. rewrite Hj. cbn [resume].
  repeat split; reflexivity.
Qed.

(** X13: the health probe only informs.  The constructor sends one request,
    the [GET] of [/health], and nothing else; when that ends, the backend
    status becomes connected for a success status, connection issue for
    another status and not reachable when there is no response, and nothing
    else changes: no field of the controller, no control, no button, no
    message. *)
Theorem health_probe_informs (mobile : bool) (page_inputs : Controls) (page : View) :
  effects (construct mobile page_inputs page) = [Fetch health_request]
  /\ jobs (construct mobile page_inputs page) !! O = Some HealthFetchJob
  /\ forall s i o,
       jobs s !! i = Some HealthFetchJob ->
       (exists r, o = Responded r) \/ (exists m, o = Rejected m) ->
       let s' := step s (Completed i o) in
       backendStatus (view s')
       = Some match o with
              | Responded r => if ok r then Connected else ConnectionIssue
              | _ => NotReachable
              end
       /\ set_backendStatus (backendStatus (view s)) (view s') = view s
       /\ ctl s' = ctl s /\ inputs s' = inputs s /\ blobs s' = blobs s
       /\ effects s' = effects s /\ jobs s' = delete i (jobs s).
Proof.
  split; [destruct mobile; reflexivity|]. split; [destruct mobile; reflexivity|].
  intros s i o Hj Ho. cbv zeta.
  change (step s (Completed i o)) with (complete i o s). unfold complete. rewrite Hj.
  destruct s as [c inp vw bl nx jb ef]. destruct vw.
  destruct Ho as [(r & ->) | (m & ->)]; cbn [resume]; unfold health_resume; cbn;
    repeat split; reflexivity.
Qed.

Lemma health_probe_informs_witness :
  jobs (initial false) !! O = Some HealthFetchJob
  /\ backendStatus (view (step (initial false) (Completed 0 (Responded oom))))
     = Some ConnectionIssue.
Proof.
  destruct (health_probe_informs false default_inputs index_page) as (_ & G1 & G).
  split; [exact G1|].
  destruct (G (initial false) O (Responded oom) G1 (or_introl (ex_intro _ oom eq_refl)))
    as (G2 & _).
  exact G2.
Defined.

(** ** Downloading *)

Lemma without_app (c : ascii) (a b : string) :
  without c (a ++ b) <-> without c a /\ without c b.
Proof.
  induction a as [|x a IH]; [cbn; tauto|].
  rewrite append_cons. cbn. rewrite IH. tauto.
Qed.

Lemma without_substring (c : ascii) (s : string) (n m : nat) :
  without c s -> without c (String.substring n m s).
Proof.
  revert n m. induction s as [|x s IH]; intros n m H.
  - destruct n, m; exact I.
  - destruct H as (Hx & Hs). destruct n as [|n].
    + destruct m as [|m]; [exact I|]. cbn. split; [exact Hx | apply IH, Hs].
    + cbn. apply IH, Hs.
Qed.

Lemma without_replace_all (c by_ : ascii) (s : string) :
  by_ <> c -> without c (Js.replace_all c by_ s).
Proof.
  intros Hne. induction s as [|x s IH]; [exact I|]. cbn. split; [|exact IH].
  destruct (Ascii.eqb c x) eqn:E; [exact Hne|].
  apply Ascii.eqb_neq in E. congruence.
Qed.

Lemma without_string_of_uint_raw (c : ascii) (d : Decimal.uint) :
  (N_of_ascii c < 48 \/ 57 < N_of_ascii c)%N -> without c (NilEmpty.string_of_uint d).
Proof.
  intros Hc.
  assert (Hd : forall x : ascii, (48 <= N_of_ascii x <= 57)%N -> x <> c).
  { intros x Hx ->. lia. }
  induction d as [|d IH|d IH|d IH|d IH|d IH|d IH|d IH|d IH|d IH|d IH].
  1: exact I.
  all: cbn [NilEmpty.string_of_uint without].
  all: split; [apply Hd; cbn; lia | exact IH].
Qed.

Lemma without_string_of_uint (c : ascii) (d : Decimal.uint) :
  (N_of_ascii c < 48 \/ 57 < N_of_ascii c)%N -> without c (NilZero.string_of_uint d).
Proof.
  intros Hc. pose proof (without_string_of_uint_raw c d Hc) as H.
  destruct d; try exact H.
  cbn. split; [|exact I]. intros <-. cbn in Hc. lia.
Qed.

Lemma without_to_string (v : Js.num) : without ":" (Js.to_string v).
Proof.
  destruct v as [z|]; [|cbn; repeat split; discriminate].
  unfold Js.to_string, Js.string_of_Z, NilZero.string_of_int.
  destruct (Z.to_int z) as [d|d].
  - apply without_string_of_uint. right. cbn. lia.
  - cbn. split; [discriminate|]. apply without_string_of_uint. right. cbn. lia.
Qed.

Lemma lastIndexOf_without (c : ascii) (s : string) :
  without c s -> Js.lastIndexOf c s = None.
Proof.
  induction s as [|x s IH]; [reflexivity|]. intros (Hx & Hs). cbn. rewrite (IH Hs).
  destruct (Ascii.eqb c x) eqn:E; [|reflexivity].
  apply Ascii.eqb_eq in E. congruence.
Qed.

Lemma lastIndexOf_last (c : ascii) (base ext : string) :
  without c ext ->
  Js.lastIndexOf c (base ++ String c ext) = Some (String.length base).
Proof.
  intros He. induction base as [|x base IH].
  - change (Js.lastIndexOf c (String c ext) = Some O). cbn.
    rewrite (lastIndexOf_without c ext He). now rewrite Ascii.eqb_refl.
  - rewrite append_cons. cbn. now rewrite IH.
Qed.

Lemma substring_prefix (a b : string) : String.substring 0 (String.length a) (a ++ b) = a.
Proof.
  induction a as [|x a IH]; [destruct b; reflexivity|].
  rewrite append_cons. cbn. now rewrite IH.
Qed.

(** X14: the name of the downloaded file keeps the original name up to its
    last dot: [base.ext] gives [base] between the two underscores, whatever
    dots [base] itself has.  A name without a dot is dropped altogether, two
    underscores in a row being all that is left of it. *)
Theorem download_name_keeps_stem (f : File) (superResSelectValue now : string) :
  let v := Js.parseInt superResSelectValue in
  let scaleSuffix := if Js.gtb v 1 then "_" ++ Js.to_string v ++ "x" else "" in
  let timestamp := Js.replace_all ":" "-" (String.substring 0 19 now) in
  (forall base ext,
     file_name f = base ++ "." ++ ext -> without "." ext ->
     download_filename f superResSelectValue now
     = "enhanced" ++ scaleSuffix ++ "_" ++ base ++ "_" ++ timestamp ++ ".png")
  /\ (without "." (file_name f) ->
      download_filename f superResSelectValue now
      = "enhanced" ++ scaleSuffix ++ "__" ++ timestamp ++ ".png").
Proof.
  cbv zeta. unfold download_filename. cbv zeta. split.
  - intros base ext Hn He. rewrite Hn.
    change (base ++ "." ++ ext) with (base ++ String "." ext).
    rewrite (lastIndexOf_last "." base ext He). unfold Js.substring_to.
    rewrite substring_prefix. reflexivity.
  - intros Hn. rewrite (lastIndexOf_without "." _ Hn). unfold Js.substring_to.
    destruct (file_name f); reflexivity.
Qed.

Lemma download_name_keeps_stem_witness :
  file_name photo = "cat" ++ "." ++ "jpg"
  /\ without "." "jpg"
  /\ download_filename photo "2" "2026-11-02T09:26:31.123Z"
     = "enhanced_2x_cat_2026-11-02T09-26-31.png".
Proof.
  assert (Hn : file_name photo = "cat" ++ "." ++ "jpg") by reflexivity.
  assert (He : without "." "jpg") by (cbn; repeat split; discriminate).
  destruct (download_name_keeps_stem photo "2" "2026-11-02T09:26:31.123Z") as (G & _).
  split; [exact Hn|]. split; [exact He|].
  rewrite (G "cat" "jpg" Hn He). vm_compute. reflexivity.
Defined.

(** X15: if the original name has no colon, the name of the downloaded file
    has none: the colons of the time are replaced, and the factor is printed
    in digits. *)
Theorem download_name_has_no_colon (f : File) (superResSelectValue now : string) :
  without ":" (file_name f) ->
  without ":" (download_filename f superResSelectValue now).
Proof.
  intros Hn. unfold download_filename. cbv zeta.
  repeat (apply without_app; split).
  - cbn. repeat split; discriminate.
  - destruct (Js.gtb _ 1); [|exact I].
    repeat (apply without_app; split).
    + cbn. split; [discriminate | exact I].
    + apply without_to_string.
    + cbn. split; [discriminate | exact I].
  - cbn. split; [discriminate | exact I].
  - unfold Js.substring_to. apply without_substring, Hn.
  - cbn. split; [discriminate | exact I].
  - apply without_replace_all. discriminate.
  - cbn. repeat split; discriminate.
Qed.

Lemma download_name_has_no_colon_witness :
  without ":" (file_name photo)
  /\ without ":" (download_filename photo "4" "2026-11-02T09:26:31.123Z").
Proof.
  assert (Hn : without ":" (file_name photo)) by (cbn; repeat split; discriminate).
  split; [exact Hn | exact (download_name_has_no_colon photo "4" _ Hn)].
Defined.

(** X16: a download never touches the result.  With a result and a file
    it clicks one anchor whose target is the URL of the result and says so
    in a success message; the URL stays live and held, so the download can
    be repeated.  Without a result it shows an error and clicks nothing. *)
Theorem download_keeps_result (s : State) (now : string) :
  let s' := downloadImage now s in
  ctl s' = ctl s /\ inputs s' = inputs s /\ blobs s' = blobs s /\ nextUrl s' = nextUrl s
  /\ (enhancedImageUrl (ctl s) = None ->
      effects s' = effects s /\ jobs s' = jobs s
      /\ statusText (view s') = "No enhanced image to download"
      /\ statusClass (view s') = "status error")
  /\ (forall u f,
        enhancedImageUrl (ctl s) = Some u -> currentImageFile (ctl s) = Some f ->
        effects s'
        = (effects s ++ [AnchorClick u (download_filename f (superResSelect (inputs s)) now)])%list
        /\ statusClass (view s') = "status success"
        /\ effects (downloadImage now s')
           = (effects s' ++ [AnchorClick u (download_filename f (superResSelect (inputs s)) now)])%list).
Proof.
  cbv zeta.
  assert (H : ctl (downloadImage now s) = ctl s /\ inputs (downloadImage now s) = inputs s
              /\ blobs (downloadImage now s) = blobs s
              /\ nextUrl (downloadImage now s) = nextUrl s).
  { unfold downloadImage. destruct (enhancedImageUrl (ctl s)); [|repeat split; reflexivity].
    destruct (currentImageFile (ctl s)); repeat split; reflexivity. }
  destruct H as (H1 & H2 & H3 & H4).
  split; [exact H1|]. split; [exact H2|]. split; [exact H3|]. split; [exact H4|].
  split.
  - intros Hu. unfold downloadImage. rewrite Hu. repeat split; reflexivity.
  - intros u f Hu Hf.
    assert (G : forall s0, enhancedImageUrl (ctl s0) = Some u ->
                           currentImageFile (ctl s0) = Some f ->
                           effects (downloadImage now s0)
                           = (effects s0
                              ++ [AnchorClick u (download_filename f (superResSelect (inputs s0)) now)])%list
                           /\ statusClass (view (downloadImage now s0)) = "status success").
    { intros s0 Hu0 Hf0. unfold downloadImage. rewrite Hu0, Hf0. split; reflexivity. }
    destruct (G s Hu Hf) as (G1 & G2). split; [exact G1|]. split; [exact G2|].
    rewrite <- H2. apply G; [rewrite H1; exact Hu | rewrite H1; exact Hf].
Qed.

Lemma download_keeps_result_witness :
  let s := run (initial false) enhance_photo in
  enhancedImageUrl (ctl s) = Some 1%nat
  /\ currentImageFile (ctl s) = Some photo
  /\ effects (downloadImage "2026-11-02T09:26:31.123Z" s)
     = (effects s ++ [AnchorClick 1 "enhanced_cat_2026-11-02T09-26-31.png"])%list.
Proof.
  cbv zeta. set (s := run (initial false) enhance_photo).
  assert (Hu : enhancedImageUrl (ctl s) = Some 1%nat) by (vm_compute; reflexivity).
  assert (Hf : currentImageFile (ctl s) = Some photo) by (vm_compute; reflexivity).
  pose proof (download_keeps_result s "2026-11-02T09:26:31.123Z") as G. cbv zeta in G.
  destruct G as (_ & _ & _ & _ & _ & G). destruct (G 1%nat photo Hu Hf) as (G1 & _).
  split; [exact Hu|]. split; [exact Hf|]. rewrite G1. vm_compute. reflexivity.
Defined.

(** ** Settings *)

(** X17: changing a setting (a slider, the denoise box, the factor, the
    format, the auto-enhance box) never enhances: nothing is sent, the
    controller's fields, the object URLs, both buttons, and the enhanced
    image with its stats stay as they are, and the only work it may leave
    behind is the timer that hides a success message.  What is on display
    and what a download gives remain the result of the old settings. *)
Theorem settings_do_not_enhance (s : State) (e : Event) :
  setting e = true ->
  let s' := step s e in
  effects s' = effects s /\ ctl s' = ctl s /\ blobs s' = blobs s
  /\ enhanceBtn_disabled (view s') = enhanceBtn_disabled (view s)
  /\ downloadBtn_disabled (view s') = downloadBtn_disabled (view s)
  /\ originalPreview (view s') = originalPreview (view s)
  /\ enhancedPreview (view s') = enhancedPreview (view s)
  /\ enhancedStats (view s') = enhancedStats (view s)
  /\ (jobs s' = jobs s \/ jobs s' = (jobs s ++ [HideStatusTimer])%list).
Proof.
  destruct s as [c i v b n j ef].
  destruct e as [| |which value|checked|value|value|checked| | | | | | | |];
    try discriminate; intros _; cbv zeta.
  - destruct which; repeat split; try reflexivity; left; reflexivity.
  - repeat split; try reflexivity; left; reflexivity.
  - unfold step. destruct (String.eqb value "8" && option8x_disabled _).
    + repeat split; try reflexivity; left; reflexivity.
    + repeat split; try reflexivity; right; reflexivity.
  - repeat split; try reflexivity; left; reflexivity.
  - unfold step. cbv zeta. destruct checked.
    + destruct c as [oi ei [f|] eu mob];
        repeat split; try reflexivity; left; reflexivity.
    + repeat split; try reflexivity; left; reflexivity.
Qed.

Lemma settings_do_not_enhance_witness :
  let s := run (initial false) enhance_photo in
  setting (SliderInput Sharpness "3.5") = true
  /\ effects (step s (SliderInput Sharpness "3.5")) = effects s
  /\ enhancedPreview (view (step s (SliderInput Sharpness "3.5"))) = enhancedPreview (view s).
Proof.
  cbv zeta. set (s := run (initial false) enhance_photo).
  assert (H : setting (SliderInput Sharpness "3.5") = true) by reflexivity.
  pose proof (settings_do_not_enhance s (SliderInput Sharpness "3.5") H) as G.
  cbv zeta in G. destruct G as (G1 & _ & _ & _ & _ & _ & G2 & _).
  split; [exact H|]. split; [exact G1 | exact G2].
Defined.

(** ** Double tap *)

Lemma touchstart_rapid (t : Z) (o : DoubleTap.Origin) (z : DoubleTap.Zoom) :
  0 < t - DoubleTap.lastTap z < 300 ->
  let z' := fst (DoubleTap.touchstart t o z) in
  DoubleTap.lastTap z' = t
  /\ DoubleTap.zoomed z' = negb (DoubleTap.zoomed z)
  /\ snd (DoubleTap.touchstart t o z) = true
  /\ DoubleTap.transformOrigin z'
     = (if DoubleTap.zoomed z then DoubleTap.Center else o).
Proof.
  intros H. cbv zeta. unfold DoubleTap.touchstart, DoubleTap.zoomed. cbv zeta.
  replace (t - DoubleTap.lastTap z <? 300) with true by (symmetry; apply Z.ltb_lt; lia).
  replace (0 <? t - DoubleTap.lastTap z) with true by (symmetry; apply Z.ltb_lt; lia).
  cbn [andb]. destruct (DoubleTap.transform z); repeat split; reflexivity.
Qed.

Lemma touchstart_slow (t : Z) (o : DoubleTap.Origin) (z : DoubleTap.Zoom) :
  300 <= t - DoubleTap.lastTap z \/ t - DoubleTap.lastTap z <= 0 ->
  DoubleTap.touchstart t o z
  = ({| DoubleTap.lastTap := t; DoubleTap.transform := DoubleTap.transform z;
        DoubleTap.transformOrigin := DoubleTap.transformOrigin z |}, false).
Proof.
  intros H. unfold DoubleTap.touchstart. cbv zeta.
  destruct (t - DoubleTap.lastTap z <? 300) eqn:E1; [|reflexivity].
  destruct (0 <? t - DoubleTap.lastTap z) eqn:E2; [|reflexivity].
  apply Z.ltb_lt in E1, E2. lia.
Qed.

(** X18: on an image, every tap that comes less than 300 ms (and at least
    1 ms) after the tap before toggles the zoom, so a run of such taps
    leaves the image zoomed exactly when their number is odd, a triple tap
    ending where a single tap does; each of them suppresses the browser's
    default.  Taps further apart, or with a clock that did not advance,
    never change the zoom or its origin, and suppress nothing. *)
Theorem double_tap_toggles_zoom (z : DoubleTap.Zoom) (ts : list (Z * DoubleTap.Origin)) :
  (DoubleTap.rapid (DoubleTap.lastTap z) ts ->
   DoubleTap.zoomed (DoubleTap.taps z ts)
   = xorb (DoubleTap.zoomed z) (Nat.odd (length ts))
   /\ forall t o, 0 < t - DoubleTap.lastTap (DoubleTap.taps z ts) < 300 ->
                  snd (DoubleTap.touchstart t o (DoubleTap.taps z ts)) = true)
  /\ (DoubleTap.slow (DoubleTap.lastTap z) ts ->
      DoubleTap.transform (DoubleTap.taps z ts) = DoubleTap.transform z
      /\ DoubleTap.transformOrigin (DoubleTap.taps z ts) = DoubleTap.transformOrigin z
      /\ forall t o, (300 <= t - DoubleTap.lastTap (DoubleTap.taps z ts)
                      \/ t - DoubleTap.lastTap (DoubleTap.taps z ts) <= 0) ->
                     snd (DoubleTap.touchstart t o (DoubleTap.taps z ts)) = false).
Proof.
  split.
  - revert z. induction ts as [|[t o] ts IH]; intros z H.
    + split; [cbn; now destruct (DoubleTap.zoomed z)|].
      intros t o Ht. change (DoubleTap.taps z []) with z in *.
      apply (touchstart_rapid t o z Ht).
    + destruct H as (Ht & Hr). cbn [fst] in Ht, Hr.
      destruct (touchstart_rapid t o z Ht) as (L & Zm & _).
      change (DoubleTap.taps z ((t, o) :: ts))
        with (DoubleTap.taps (fst (DoubleTap.touchstart t o z)) ts).
      rewrite <- L in Hr. destruct (IH _ Hr) as (I1 & I2).
      split; [|exact I2]. rewrite I1, Zm.
      change (length ((t, o) :: ts)) with (S (length ts)). rewrite Nat.odd_succ.
      rewrite <- Nat.negb_odd.
      destruct (DoubleTap.zoomed z), (Nat.odd (length ts)); reflexivity.
  - revert z. induction ts as [|[t o] ts IH]; intros z H.
    + split; [reflexivity|]. split; [reflexivity|].
      intros t o Ht. change (DoubleTap.taps z []) with z in *.
      rewrite (touchstart_slow t o z Ht). reflexivity.
    + destruct H as (Ht & Hs). cbn [fst] in Ht, Hs.
      change (DoubleTap.taps z ((t, o) :: ts))
        with (DoubleTap.taps (fst (DoubleTap.touchstart t o z)) ts).
      rewrite (touchstart_slow t o z Ht). cbn [fst].
      exact (IH {| DoubleTap.lastTap := t;
                   DoubleTap.transform := DoubleTap.transform z;
                   DoubleTap.transformOrigin := DoubleTap.transformOrigin z |} Hs).
Qed.

Lemma double_tap_toggles_zoom_witness :
  let z := {| DoubleTap.lastTap := 1000; DoubleTap.transform := DoubleTap.Unset;
              DoubleTap.transformOrigin := DoubleTap.OriginUnset |} in
  let ts := [(1100, DoubleTap.Center); (1250, DoubleTap.Center); (1400, DoubleTap.Center)] in
  DoubleTap.rapid (DoubleTap.lastTap z) ts
  /\ DoubleTap.zoomed (DoubleTap.taps z ts) = true
  /\ DoubleTap.slow (DoubleTap.lastTap z) [(1300, DoubleTap.Center); (1000, DoubleTap.Center)]
  /\ DoubleTap.transform
       (DoubleTap.taps z [(1300, DoubleTap.Center); (1000, DoubleTap.Center)])
     = DoubleTap.Unset.
Proof.
  cbv zeta.
  set (z := {| DoubleTap.lastTap := 1000; DoubleTap.transform := DoubleTap.Unset;
               DoubleTap.transformOrigin := DoubleTap.OriginUnset |}).
  set (ts := [(1100, DoubleTap.Center); (1250, DoubleTap.Center); (1400, DoubleTap.Center)]).
  set (us := [(1300, DoubleTap.Center); (1000, DoubleTap.Center)]).
  assert (Hr : DoubleTap.rapid (DoubleTap.lastTap z) ts) by (cbn; lia).
  assert (Hs : DoubleTap.slow (DoubleTap.lastTap z) us) by (cbn; lia).
  destruct (double_tap_toggles_zoom z ts) as (G & _).
  destruct (double_tap_toggles_zoom z us) as (_ & G').
  destruct (G Hr) as (G1 & _). destruct (G' Hs) as (G2 & _).
  split; [exact Hr|]. split; [exact G1|]. split; [exact Hs | exact G2].
Defined.

(** ** Device detection *)

Lemma upper_idem (c : ascii) : Js.upper (Js.upper c) = Js.upper c.
Proof. destruct c as [[] [] [] [] [] [] [] []]; reflexivity. Qed.

Lemma toUpperCase_app (a b : string) :
  Js.toUpperCase (a ++ b) = Js.toUpperCase a ++ Js.toUpperCase b.
Proof.
  induction a as [|x a IH]; [reflexivity|].
  rewrite append_cons. cbn [Js.toUpperCase]. rewrite append_cons. now rewrite IH.
Qed.

Lemma starts_with_ci_spec (w s : string) :
  starts_with_ci w s = true
  <-> exists pre post, s = pre ++ post /\ Js.toUpperCase pre = Js.toUpperCase w.
Proof.
  revert s. induction w as [|c w IH]; intros s.
  - split; [|reflexivity]. intros _. exists "", s. split; reflexivity.
  - destruct s as [|d s]; cbn [starts_with_ci].
    + split; [discriminate|]. intros (pre & post & E & U).
      destruct pre; [discriminate U|]. rewrite append_cons in E. discriminate E.
    + rewrite andb_true_iff, Ascii.eqb_eq, IH. split.
      * intros (Hc & pre & post & -> & U). exists (String d pre), post.
        split; [now rewrite append_cons|]. cbn [Js.toUpperCase]. now rewrite Hc, U.
      * intros (pre & post & E & U). destruct pre as [|x pre]; [discriminate U|].
        rewrite append_cons in E. injection E as -> ->.
        cbn [Js.toUpperCase] in U. injection U as U1 U2.
        split; [now symmetry|]. exists pre, post. split; [reflexivity | exact U2].
Qed.

Lemma search_ci_spec (w s : string) :
  search_ci w s = true
  <-> exists before hit after,
        s = before ++ hit ++ after /\ Js.toUpperCase hit = Js.toUpperCase w.
Proof.
  induction s as [|d s IH].
  - cbn [search_ci]. rewrite orb_false_r, starts_with_ci_spec. split.
    + intros (pre & post & E & U). exists "", pre, post. split; [exact E | exact U].
    + intros (before & hit & after & E & U).
      destruct before; [|rewrite append_cons in E; discriminate E].
      exists hit, after. split; [exact E | exact U].
  - cbn [search_ci]. rewrite orb_true_iff, starts_with_ci_spec, IH. split.
    + intros [(pre & post & E & U) | (before & hit & after & E & U)].
      * exists "", pre, post. split; [exact E | exact U].
      * exists (String d before), hit, after. split; [|exact U].
        rewrite append_cons. now rewrite E.
    + intros (before & hit & after & E & U). destruct before as [|x before].
      * left. exists hit, after. split; [exact E | exact U].
      * right. rewrite append_cons in E. injection E as _ E.
        exists before, hit, after. split; [exact E | exact U].
Qed.

Lemma starts_with_ci_upper (w s : string) :
  starts_with_ci w (Js.toUpperCase s) = starts_with_ci w s.
Proof.
  revert s. induction w as [|c w IH]; intros s; [reflexivity|].
  destruct s as [|d s]; [reflexivity|].
  cbn [Js.toUpperCase starts_with_ci]. now rewrite upper_idem, IH.
Qed.

Lemma search_ci_upper (w s : string) :
  search_ci w (Js.toUpperCase s) = search_ci w s.
Proof.
  induction s as [|d s IH].
  - reflexivity.
  - cbn [Js.toUpperCase search_ci]. rewrite <- IH.
    change (String (Js.upper d) (Js.toUpperCase s)) with (Js.toUpperCase (String d s)).
    now rewrite starts_with_ci_upper.
Qed.

(** X19: a device counts as mobile exactly when its user agent contains one
    of the eight names up to the case of the letters [a] to [z]; so the
    answer does not depend on the case the user agent is written in, and
    text around a user agent that counts as mobile does not change that. *)
Theorem mobile_iff_token_occurs (userAgent : string) :
  (checkIfMobile userAgent = true
   <-> exists w before hit after,
         In w mobile_tokens /\ userAgent = before ++ hit ++ after
         /\ Js.toUpperCase hit = Js.toUpperCase w)
  /\ checkIfMobile (Js.toUpperCase userAgent) = checkIfMobile userAgent
  /\ (forall pre post,
        checkIfMobile userAgent = true -> checkIfMobile (pre ++ userAgent ++ post) = true).
Proof.
  assert (S : forall ua,
             checkIfMobile ua = true
             <-> exists w before hit after,
                   In w mobile_tokens /\ ua = before ++ hit ++ after
                   /\ Js.toUpperCase hit = Js.toUpperCase w).
  { intros ua. unfold checkIfMobile. rewrite existsb_exists. split.
    - intros (w & Hw & Hs). apply search_ci_spec in Hs as (b & h & a & E & U).
      exists w, b, h, a. split; [exact Hw|]. split; [exact E | exact U].
    - intros (w & b & h & a & Hw & E & U). exists w. split; [exact Hw|].
      apply search_ci_spec. exists b, h, a. split; [exact E | exact U]. }
  split; [apply S|]. split.
  - unfold checkIfMobile. generalize mobile_tokens as l.
    induction l as [|w l IH]; [reflexivity|]. cbn [existsb].
    now rewrite search_ci_upper, IH.
  - intros pre post H. apply S in H as (w & b & h & a & Hw & E & U). apply S.
    exists w, (pre ++ b), h, (a ++ post). split; [exact Hw|]. split; [|exact U].
    rewrite E, !append_assoc. reflexivity.
Qed.

Lemma mobile_iff_token_occurs_witness :
  checkIfMobile "Mozilla/5.0 (iPhone; CPU iPhone OS 17_0 like Mac OS X)" = true
  /\ checkIfMobile "MOZILLA/5.0 (IPHONE; CPU IPHONE OS 17_0 LIKE MAC OS X)" = true.
Proof.
  assert (H : checkIfMobile "Mozilla/5.0 (iPhone; CPU iPhone OS 17_0 like Mac OS X)" = true)
    by (vm_compute; reflexivity).
  destruct (mobile_iff_token_occurs "Mozilla/5.0 (iPhone; CPU iPhone OS 17_0 like Mac OS X)")
    as (_ & G & _).
  split; [exact H|].
  change "MOZILLA/5.0 (IPHONE; CPU IPHONE OS 17_0 LIKE MAC OS X)"
    with (Js.toUpperCase "Mozilla/5.0 (iPhone; CPU iPhone OS 17_0 like Mac OS X)").
  rewrite G. exact H.
Defined.

(** ** Retrying *)

Lemma errorModal_enhanceImage (answer : bool) (s : State) :
  errorModal (view (enhanceImage answer s)) = errorModal (view s).
Proof.
  destruct s as [[oi ei cf eu mob] inp vw bl nx jb ef].
  unfold enhanceImage. cbn [ctl inputs currentImageFile isMobile].
  destruct cf as [file|]; [|reflexivity].
  destruct (mob && Js.geb (Js.parseInt (superResSelect inp)) 4) eqn:E.
  - cbn [andb]. destruct answer; cbn [negb]; [|reflexivity].
    destruct mob; [|discriminate]. reflexivity.
  - cbn [andb]. destruct mob; reflexivity.
Qed.

(** X20: the retry button of the error modal closes the modal and, with a
    file selected, enhances again: after the prompt on mobile for a factor
    of 4 or more, it sends one request, a [POST] to [/enhance-advanced] of
    the backend with the selected file as the form field [file] and the
    sharpness, contrast, brightness, color, denoise and super-resolution
    parameters as the controls hold them now; a no to the prompt leaves the
    modal closed with nothing sent.  Without a file it only closes the
    modal. *)
Theorem retry_enhances_again (s : State) (answer : bool) :
  errorModal (view s) = true ->
  let s' := step s (RetryClicked answer) in
  let v := Js.parseInt (superResSelect (inputs s)) in
  let asked := isMobile (ctl s) && Js.geb v 4 in
  errorModal (view s') = false
  /\ (forall file,
        currentImageFile (ctl s) = Some file ->
        effects s'
        = (effects s
           ++ (if asked
               then [Confirm ("⚠️ " ++ Js.to_string v
                              ++ "x upscaling may be slow on mobile. Continue?") answer]
               else [])
           ++ (if asked && negb answer then []
               else [Fetch
                       {| method := "POST";
                          url := "https://your-pythonanywhere-backend.com/enhance-advanced";
                          query :=
                            [("sharpness", sharpnessSlider (inputs s));
                             ("contrast", contrastSlider (inputs s));
                             ("brightness", brightnessSlider (inputs s));
                             ("color", colorSlider (inputs s));
                             ("denoise",
                              if denoiseCheckbox (inputs s) then "true" else "false");
                             ("super_resolution", Js.to_string v)];
                          form := [("file", file)] |}]))%list
        /\ (asked && negb answer = false ->
            jobs s' = (jobs s ++ [EnhanceFetchJob v])%list
            /\ loadingModal (view s') = true))
  /\ (currentImageFile (ctl s) = None -> effects s' = effects s /\ jobs s' = jobs s).
Proof.
  intros Hm. cbv zeta. unfold step. rewrite Hm. unfold retry. cbv zeta.
  change (currentImageFile (ctl (hideModal ErrorModal s))) with (currentImageFile (ctl s)).
  split; [|split].
  - destruct (currentImageFile (ctl s)); [|reflexivity].
    rewrite errorModal_enhanceImage. reflexivity.
  - intros file Hf. rewrite Hf. split.
    + rewrite (enhanceImage_effects file answer (hideModal ErrorModal s) Hf). cbv zeta.
      rewrite enhance_request_content. reflexivity.
    + intros Hgo.
      destruct s as [[oi ei cf eu mob] inp vw bl nx jb ef].
      unfold enhanceImage. cbn [ctl inputs currentImageFile isMobile hideModal on_view
        set_view view] in *.
      rewrite Hf, Hgo.
      destruct (mob && Js.geb (Js.parseInt (superResSelect inp)) 4);
        destruct mob; split; reflexivity.
  - intros Hf. rewrite Hf. split; reflexivity.
Qed.

Lemma retry_enhances_again_witness :
  let s := run (initial false)
             (load_photo ++ [EnhanceClicked true; Completed 4 (Rejected "Failed to fetch")])%list in
  errorModal (view s) = true
  /\ errorModal (view (step s (RetryClicked true))) = false
  /\ effects (step s (RetryClicked true))
     = (effects s
        ++ [Fetch {| method := "POST";
                     url := "https://your-pythonanywhere-backend.com/enhance-advanced";
                     query := [("sharpness", "2"); ("contrast", "1.2");
                               ("brightness", "1.1"); ("color", "1.1");
                               ("denoise", "false"); ("super_resolution", "1")];
                     form := [("file", photo)] |}])%list.
Proof.
  cbv zeta.
  set (s := run (initial false)
              (load_photo ++ [EnhanceClicked true; Completed 4 (Rejected "Failed to fetch")])%list).
  assert (Hm : errorModal (view s) = true) by (vm_compute; reflexivity).
  assert (Hf : currentImageFile (ctl s) = Some photo) by (vm_compute; reflexivity).
  pose proof (retry_enhances_again s true Hm) as G. cbv zeta in G.
  destruct G as (G1 & G2 & _). destruct (G2 photo Hf) as (G3 & _).
  split; [exact Hm|]. split; [exact G1|].
  rewrite G3. vm_compute. reflexivity.
Defined.
